(** * Fusionador PDF: the selection store, the merge service and the download
      action, embedded from [src/services/pdfService.ts] and the [App]
      component, with the properties of the design note checked against them. *)

From Stdlib Require Import String Ascii List Arith NArith Bool Lia.
From Stdlib Require Import Decimal DecimalString DecimalN.
Import ListNotations.
Open Scope string_scope.

(** ** JavaScript values the program handles *)

(** Binary payloads: what [file.arrayBuffer()] resolves to and what
    [mergedPdf.save()] returns. *)
Definition ArrayBuffer : Type := list Byte.byte.
Definition Uint8Array : Type := list Byte.byte.

(** A value raised by [throw] or by a rejected promise. [Error],
    [ReferenceError] and [DOMException] objects all satisfy
    [err instanceof Error]; anything else a library may throw is
    [NonError]. *)
Inductive Thrown : Type :=
| Error (message : string)
| ReferenceError (message : string)
| DOMException (message : string)
| NonError.

(** A browser [File]. [content] is what [file.arrayBuffer()] settles to: the
    bytes, or the message of the [DOMException] the read is rejected with. *)
Record File : Type := {
  name : string;
  type : string;
  content : string + ArrayBuffer
}.

(** [file.type === 'application/pdf'] *)
Definition isPdf (f : File) : bool := type f =? "application/pdf".

(** [String(n)] for a non-negative integer, as a template literal prints
    [Date.now()]. *)
Definition decimal (n : N) : string := NilEmpty.string_of_uint (N.to_uint n).

(** ** Effects: a log of what the code calls, and exceptions *)

Inductive LibCall : Type :=
| CallCreate | CallLoad | CallGetPageIndices | CallCopyPages | CallAddPage
| CallGetPageCount | CallSave.

Inductive Event : Type :=
| PdfLib (c : LibCall)          (* a call into the PDF library *)
| ReadFile (fileName : string)  (* file.arrayBuffer() *)
| ConsoleWarn (msg : string)
| ConsoleError (msg : string).

(** A computation logs events and either throws or returns. *)
Definition M (A : Type) : Type := (list Event * (Thrown + A))%type.

Definition ret {A} (a : A) : M A := ([], inr a).
Definition throw {A} (e : Thrown) : M A := ([], inl e).
Definition emit (ev : Event) : M unit := ([ev], inr tt).

Definition bind {A B} (m : M A) (k : A -> M B) : M B :=
  match m with
  | (t, inl e) => (t, inl e)
  | (t, inr a) => let (t', r) := k a in ((t ++ t')%list, r)
  end.

(** [try { body } catch (error) { handler }] *)
Definition try_catch {A} (body : M A) (handler : Thrown -> M A) : M A :=
  match body with
  | (t, inl e) => let (t', r) := handler e in ((t ++ t')%list, r)
  | (t, inr a) => (t, inr a)
  end.

Declare Scope js_scope.
Delimit Scope js_scope with js.
Notation "x <- c1 ;; c2" := (bind c1 (fun x => c2))
  (at level 61, c1 at next level, right associativity) : js_scope.
Notation "c1 ;; c2" := (bind c1 (fun _ => c2))
  (at level 61, right associativity) : js_scope.
Open Scope js_scope.

Definition trace {A} (m : M A) : list Event := fst m.
Definition outcome {A} (m : M A) : Thrown + A := snd m.

(** [await file.arrayBuffer()] *)
Definition arrayBuffer (f : File) : M ArrayBuffer :=
  emit (ReadFile (name f));;
  match content f with
  | inl msg => throw (DOMException msg)
  | inr buf => ret buf
  end.

(** ** The PDF library (pdf-lib, loaded from a CDN script) *)

Section PDFLibrary.

Variable Page : Type.

(** Modelled from the spec: the document-merge capability of section 6 is a
    third-party library outside this repository. A document is the sequence
    of its pages; [copyFault] is the exception [copyPages] raises when the
    document's pages cannot be copied out of it ([None] when they can). *)
Record PDFDocument : Type := {
  docPages : list Page;
  copyFault : option Thrown
}.

(** Modelled from the spec: parsing and serialisation are opaque.
    [parse] is load-document-from-bytes, which fails on malformed,
    unsupported or encrypted input; [serialize] is serialize-to-bytes. *)
Record PDFLibrary : Type := {
  parse : ArrayBuffer -> Thrown + PDFDocument;
  serialize : PDFDocument -> Uint8Array
}.

(** The global [PDFLib], which [declare var] only announces to the type
    checker. [Undeclared]: the CDN script never ran, so no such global
    exists and reading it throws. [Unavailable]: the global exists but is
    falsy or has no [PDFDocument] member, which is what the guard of
    [mergePdfs] tests. [Available lib]: the library is there. *)
Inductive PDFLibGlobal : Type :=
| Undeclared
| Unavailable
| Available (lib : PDFLibrary).

(** Modelled from the spec: create-empty-document. *)
Definition create : M PDFDocument :=
  emit (PdfLib CallCreate);;
  ret {| docPages := []; copyFault := None |}.

(** Modelled from the spec: load-document-from-bytes. *)
Definition load (lib : PDFLibrary) (buf : ArrayBuffer) : M PDFDocument :=
  emit (PdfLib CallLoad);;
  match parse lib buf with
  | inl e => throw e
  | inr doc => ret doc
  end.

(** Modelled from the spec: enumerate-page-indices. *)
Definition getPageIndices (doc : PDFDocument) : M (list nat) :=
  emit (PdfLib CallGetPageIndices);;
  ret (seq 0 (length (docPages doc))).

Fixpoint pagesAt (pages : list Page) (indices : list nat) : option (list Page) :=
  match indices with
  | [] => Some []
  | i :: rest =>
      match nth_error pages i, pagesAt pages rest with
      | Some p, Some ps => Some (p :: ps)
      | _, _ => None
      end
  end.

(** Modelled from the spec: copy-pages(source, indices), giving the pages
    at the indices, in the order of the indices. *)
Definition copyPages (dest src : PDFDocument) (indices : list nat)
  : M (list Page) :=
  emit (PdfLib CallCopyPages);;
  match copyFault src with
  | Some e => throw e
  | None =>
      match pagesAt (docPages src) indices with
      | Some ps => ret ps
      | None => throw (Error "Invalid page index")
      end
  end.

(** Modelled from the spec: add-page(handle), appending at the end. *)
Definition addPage (doc : PDFDocument) (p : Page) : M PDFDocument :=
  emit (PdfLib CallAddPage);;
  ret {| docPages := (docPages doc ++ [p])%list; copyFault := copyFault doc |}.

(** Modelled from the spec: page-count. *)
Definition getPageCount (doc : PDFDocument) : M nat :=
  emit (PdfLib CallGetPageCount);;
  ret (length (docPages doc)).

(** Modelled from the spec: serialize-to-bytes. *)
Definition save (lib : PDFLibrary) (doc : PDFDocument) : M Uint8Array :=
  emit (PdfLib CallSave);;
  ret (serialize lib doc).

(** ** [src/services/pdfService.ts] *)

(** The message of the [ReferenceError] for a read of the undeclared
    global, in the wording of V8 and SpiderMonkey. *)
Definition notDefinedMessage : string := "PDFLib is not defined".
Definition libraryNotLoadedMessage : string :=
  "La librería PDF-lib no está cargada. Por favor, verifica tu conexión a internet o la inclusión del script.".
Definition noFilesMessage : string :=
  "No se proporcionaron archivos para fusionar.".
Definition noPagesMessage : string :=
  "No se fusionaron páginas con éxito. Por favor, revisa tus archivos PDF.".
Definition processErrorMessage (fileName : string) : string :=
  "Error al procesar " ++ fileName
    ++ ". Podría estar corrupto o protegido por contraseña sin permisos de copia.".

(** [copiedPages.forEach((page) => { mergedPdf.addPage(page); })];
    [mergedPdf] is mutated in place, so it is threaded through. *)
Fixpoint forEachAddPage (mergedPdf : PDFDocument) (copiedPages : list Page)
  : M PDFDocument :=
  match copiedPages with
  | [] => ret mergedPdf
  | page :: rest =>
      mergedPdf' <- addPage mergedPdf page;;
      forEachAddPage mergedPdf' rest
  end.

(** The body of the [try] block for one file. *)
Definition loadAndCopy (lib : PDFLibrary) (mergedPdf : PDFDocument)
    (buf : ArrayBuffer) : M PDFDocument :=
  pdfDoc <- load lib buf;;
  indices <- getPageIndices pdfDoc;;
  copiedPages <- copyPages mergedPdf pdfDoc indices;;
  forEachAddPage mergedPdf copiedPages.

(** [for (const file of files) { ... }] *)
Fixpoint forOfFiles (lib : PDFLibrary) (files : list File)
    (mergedPdf : PDFDocument) : M PDFDocument :=
  match files with
  | [] => ret mergedPdf
  | file :: rest =>
      if negb (isPdf file) then
        emit (ConsoleWarn ("Omitiendo archivo no PDF: " ++ name file));;
        forOfFiles lib rest mergedPdf
      else
        buf <- arrayBuffer file;;
        mergedPdf' <-
          try_catch (loadAndCopy lib mergedPdf buf)
            (fun error =>
               emit (ConsoleError
                       ("Fallo al cargar o copiar páginas de " ++ name file ++ ":"));;
               throw (Error (processErrorMessage (name file))));;
        forOfFiles lib rest mergedPdf'
  end.

(** Lines 15 to 44: what runs once both guards are passed. *)
Definition mergeBody (lib : PDFLibrary) (files : list File) : M Uint8Array :=
  mergedPdf <- create;;
  mergedPdf' <- forOfFiles lib files mergedPdf;;
  count <- getPageCount mergedPdf';;
  if (count =? 0)%nat then throw (Error noPagesMessage)
  else save lib mergedPdf'.

(** [mergePdfs(files)]; [files] is [None] when the argument is absent
    ([!files]). *)
Definition mergePdfs (PDFLib : PDFLibGlobal) (files : option (list File))
  : M Uint8Array :=
  match PDFLib with
  | Undeclared => throw (ReferenceError notDefinedMessage)
  | Unavailable => throw (Error libraryNotLoadedMessage)
  | Available lib =>
      match files with
      | None => throw (Error noFilesMessage)
      | Some fs =>
          if (length fs =? 0)%nat then throw (Error noFilesMessage)
          else mergeBody lib fs
      end
  end.

End PDFLibrary.

Arguments docPages {Page} _.
Arguments copyFault {Page} _.
Arguments parse {Page} _ _.
Arguments serialize {Page} _ _.
Arguments Undeclared {Page}.
Arguments Unavailable {Page}.
Arguments Available {Page} lib.
Arguments create {Page}.
Arguments load {Page} lib buf.
Arguments getPageIndices {Page} doc.
Arguments pagesAt {Page} pages indices.
Arguments copyPages {Page} dest src indices.
Arguments addPage {Page} doc p.
Arguments getPageCount {Page} doc.
Arguments save {Page} lib doc.
Arguments forEachAddPage {Page} mergedPdf copiedPages.
Arguments loadAndCopy {Page} lib mergedPdf buf.
Arguments forOfFiles {Page} lib files mergedPdf.
Arguments mergeBody {Page} lib files.
Arguments mergePdfs {Page} PDFLib files.


(** ** The [App] component: state and event handlers *)

Record ProcessedFile : Type := {
  id : string;
  file : File;
  pf_name : string   (* the [name] member of [ProcessedFile] *)
}.

(** [new Blob([mergedPdfBytes], { type: 'application/pdf' })] *)
Record Blob : Type := {
  blobParts : Uint8Array;
  blobType : string
}.

(** The string [URL.createObjectURL(blob)] returns stands for the blob; it is
    never empty, so it is truthy. *)
Inductive ObjectURL : Type :=
| createObjectURL (blob : Blob).

(** The five [useState] cells. *)
Record AppState : Type := {
  selectedFiles : list ProcessedFile;
  mergedPdfUrl : option ObjectURL;
  isMerging : bool;
  error : option string;
  dragOver : bool
}.

Definition initialState : AppState :=
  {| selectedFiles := []; mergedPdfUrl := None; isMerging := false;
     error := None; dragOver := false |}.

Definition setSelectedFiles (update : list ProcessedFile -> list ProcessedFile)
    (st : AppState) : AppState :=
  {| selectedFiles := update (selectedFiles st);
     mergedPdfUrl := mergedPdfUrl st; isMerging := isMerging st;
     error := error st; dragOver := dragOver st |}.

Definition setMergedPdfUrl (v : option ObjectURL) (st : AppState) : AppState :=
  {| selectedFiles := selectedFiles st; mergedPdfUrl := v;
     isMerging := isMerging st; error := error st; dragOver := dragOver st |}.

Definition setIsMerging (v : bool) (st : AppState) : AppState :=
  {| selectedFiles := selectedFiles st; mergedPdfUrl := mergedPdfUrl st;
     isMerging := v; error := error st; dragOver := dragOver st |}.

Definition setError (v : option string) (st : AppState) : AppState :=
  {| selectedFiles := selectedFiles st; mergedPdfUrl := mergedPdfUrl st;
     isMerging := isMerging st; error := v; dragOver := dragOver st |}.

Definition setDragOver (v : bool) (st : AppState) : AppState :=
  {| selectedFiles := selectedFiles st; mergedPdfUrl := mergedPdfUrl st;
     isMerging := isMerging st; error := error st; dragOver := v |}.

Definition notPdfWarning : string :=
  "Algunos archivos no eran PDF y fueron ignorados.".
Definition selectTwoMessage : string :=
  "Por favor, selecciona al menos dos archivos PDF para fusionar.".
Definition unknownErrorMessage : string :=
  "Ocurrió un error desconocido durante la fusión.".

(** [xs.map((x, i) => f i x)], counting from [i]. *)
Fixpoint mapFrom {A B} (i : nat) (f : nat -> A -> B) (xs : list A) : list B :=
  match xs with
  | [] => []
  | x :: rest => f i x :: mapFrom (S i) f rest
  end.

(** [Array.from(files).filter(...).map(file => ({ id, file, name }))].
    [now i] is what the [i]-th call of [Date.now()] in the handler returns;
    the callback of [map] calls it once per accepted file. *)
Definition toProcessedFiles (now : nat -> N) (files : list File)
  : list ProcessedFile :=
  mapFrom 0
    (fun i file =>
       {| id := name file ++ "-" ++ decimal (now i);
          file := file;
          pf_name := name file |})
    (filter isPdf files).

(** The updater given to [setSelectedFiles] by both ingestion handlers:
    [newFiles.forEach(nf => { if (!prevFiles.find(...)) updatedFiles.push(nf) })],
    starting from [updatedFiles = [...prevFiles]]. *)
Definition appendNew (newFiles prevFiles : list ProcessedFile)
  : list ProcessedFile :=
  fold_left
    (fun updatedFiles nf =>
       match find (fun pf => pf_name pf =? pf_name nf) prevFiles with
       | Some _ => updatedFiles
       | None => (updatedFiles ++ [nf])%list
       end)
    newFiles prevFiles.

(** [handleFileChange(event)], with [files = event.target.files] ([None] when
    it is null). Clearing [event.target.value] touches the input element only. *)
Definition handleFileChange (now : nat -> N) (files : option (list File))
    (st : AppState) : AppState :=
  let st := setError None st in
  match files with
  | Some files =>
      let newFiles := toProcessedFiles now files in
      let st :=
        if negb (length newFiles =? length files)%nat
        then setError (Some notPdfWarning) st
        else st in
      setSelectedFiles (appendNew newFiles) st
  | None => st
  end.

(** [handleDrop(event)], with [files = event.dataTransfer.files]. *)
Definition handleDrop (now : nat -> N) (files : option (list File))
    (st : AppState) : AppState :=
  let st := setDragOver false st in
  let st := setError None st in
  match files with
  | Some files =>
      let newFiles := toProcessedFiles now files in
      let st :=
        if negb (length newFiles =? length files)%nat
        then setError (Some notPdfWarning) st
        else st in
      setSelectedFiles (appendNew newFiles) st
  | None => st
  end.

Definition handleDragOver (st : AppState) : AppState := setDragOver true st.
Definition handleDragLeave (st : AppState) : AppState := setDragOver false st.

(** [handleRemoveFile(fileId)]; the callback is rebuilt whenever
    [mergedPdfUrl] changes, so it reads the current value. *)
Definition handleRemoveFile (fileId : string) (st : AppState) : AppState :=
  let st' :=
    setSelectedFiles (filter (fun f => negb (id f =? fileId))) st in
  match mergedPdfUrl st with
  | Some _ => setMergedPdfUrl None st'
  | None => st'
  end.

(** [err instanceof Error ? err.message : "..."] *)
Definition messageOf (err : Thrown) : string :=
  match err with
  | Error message => message
  | ReferenceError message => message
  | DOMException message => message
  | NonError => unknownErrorMessage
  end.

(** [handleMergePdfs()], run from its call to the end of its [finally]
    block: the events it caused and the state it leaves. *)
Definition handleMergePdfs {Page} (PDFLib : PDFLibGlobal Page) (st : AppState)
  : list Event * AppState :=
  if (length (selectedFiles st) <? 2)%nat then
    ([], setError (Some selectTwoMessage) st)
  else
    let st := setIsMerging true st in
    let st := setError None st in
    let st := setMergedPdfUrl None st in
    let pdfFiles := map file (selectedFiles st) in
    match mergePdfs PDFLib (Some pdfFiles) with
    | (t, inr mergedPdfBytes) =>
        let blob := {| blobParts := mergedPdfBytes;
                       blobType := "application/pdf" |} in
        let url := createObjectURL blob in
        (t, setIsMerging false (setMergedPdfUrl (Some url) st))
    | (t, inl err) =>
        ((t ++ [ConsoleError "Fallo la fusión:"])%list,
         setIsMerging false (setError (Some (messageOf err)) st))
    end.

(** What clicking the temporary anchor element asks the browser to do. *)
Record Download : Type := {
  href : ObjectURL;
  download : string
}.

(** [handleDownloadMergedPdf()], with [now] the value of [Date.now()]. *)
Definition handleDownloadMergedPdf (now : N) (st : AppState) : option Download :=
  match mergedPdfUrl st with
  | Some url =>
      Some {| href := url;
              download := "documento_fusionado_" ++ decimal now ++ ".pdf" |}
  | None => None
  end.

(** [handleClearAll()] *)
Definition handleClearAll (st : AppState) : AppState :=
  let st := setSelectedFiles (fun _ => []) st in
  let st := setMergedPdfUrl None st in
  let st := setError None st in
  setIsMerging false st.

(** ** What a file does to a merge *)

Section FileOutcome.

Context {Page : Type}.
Variable lib : PDFLibrary Page.

(** The pages a file hands over when its bytes can be read, the library
    parses them and the pages can be copied; [None] otherwise. *)
Definition pagesOf (f : File) : option (list Page) :=
  match content f with
  | inl _ => None
  | inr buf =>
      match parse lib buf with
      | inl _ => None
      | inr doc =>
          match copyFault doc with
          | Some _ => None
          | None => Some (docPages doc)
          end
      end
  end.

(** A valid PDF input: declared as PDF, readable, parsed and copied. *)
Definition validPdf (f : File) : bool :=
  isPdf f && match pagesOf f with Some _ => true | None => false end.

Definition pageCount (f : File) : nat :=
  match pagesOf f with Some ps => length ps | None => 0 end.

Definition pagesOrNone (f : File) : list Page :=
  match pagesOf f with Some ps => ps | None => [] end.

(** A file the [try] block fails on: declared as PDF and read, but either the
    library rejects its bytes or its pages cannot be copied. *)
Definition failsToLoadOrCopy (f : File) : bool :=
  isPdf f &&
  match content f with
  | inl _ => false
  | inr buf =>
      match parse lib buf with
      | inl _ => true
      | inr doc => match copyFault doc with Some _ => true | None => false end
      end
  end.

(** Files the loop gets past: skipped for their type, or merged. *)
Definition passes (f : File) : bool := negb (isPdf f) || validPdf f.

(** [mergedPdf] after [ps] were added to it. *)
Definition withPages (mergedPdf : PDFDocument Page) (ps : list Page)
  : PDFDocument Page :=
  {| docPages := (docPages mergedPdf ++ ps)%list;
     copyFault := copyFault mergedPdf |}.

(** The document [PDFDocument.create()] returns. *)
Definition emptyDocument : PDFDocument Page :=
  {| docPages := []; copyFault := None |}.

(** The pages of the PDF-typed files, file after file. *)
Definition mergedPages (files : list File) : list Page :=
  concat (map pagesOrNone (filter isPdf files)).

End FileOutcome.

(** An entry of the batch is new when no stored entry has its name. *)
Definition isNewName (prevFiles : list ProcessedFile) (nf : ProcessedFile) : bool :=
  match find (fun pf => pf_name pf =? pf_name nf) prevFiles with
  | Some _ => false
  | None => true
  end.

(** ** A small stand-in library, to run the code on concrete inputs *)

Module Toy.

(** A page is one byte. A file of the toy format starts with a header byte:
    [x01] for a plain document, [x02] for one whose pages cannot be copied;
    the pages follow. Anything else does not parse. *)
Definition Page : Type := Byte.byte.

Definition toyParse (buf : ArrayBuffer) : Thrown + PDFDocument Page :=
  match buf with
  | Byte.x01 :: pages => inr {| docPages := pages; copyFault := None |}
  | Byte.x02 :: pages =>
      inr {| docPages := pages; copyFault := Some (Error "Copying is not permitted") |}
  | _ => inl (Error "Failed to parse PDF document")
  end.

Definition toySerialize (doc : PDFDocument Page) : Uint8Array :=
  Byte.x01 :: docPages doc.

Definition lib : PDFLibrary Page :=
  {| parse := toyParse; serialize := toySerialize |}.

Definition pdf (fileName : string) (buf : ArrayBuffer) : File :=
  {| name := fileName; type := "application/pdf"; content := inr buf |}.

Definition a_pdf : File := pdf "a.pdf" [Byte.x01; Byte.x0a; Byte.x0b].
Definition b_pdf : File := pdf "b.pdf" [Byte.x01; Byte.x14; Byte.x15; Byte.x16].
Definition c_pdf : File := pdf "c.pdf" [Byte.x01; Byte.x1e].
Definition bad_pdf : File := pdf "bad.pdf" [Byte.xff; Byte.x00].
Definition locked_pdf : File := pdf "locked.pdf" [Byte.x02; Byte.x28].
Definition empty_pdf (fileName : string) : File := pdf fileName [Byte.x01].
Definition notes_txt : File :=
  {| name := "notes.txt"; type := "text/plain"; content := inr [Byte.x68; Byte.x69] |}.

Definition clock (i : nat) : N := 1700000000000 + N.of_nat i.

End Toy.

(** ** The events of the page and the runs of the application *)

(** What the page lets the user do, as the JSX wires it: [onChange] of the
    file input, [onDrop], [onDragOver] and [onDragLeave] of the drop area,
    and the clicks on the remove, merge and clear buttons. The download
    button only reads the state ([handleDownloadMergedPdf]). *)
Inductive Action (Page : Type) : Type :=
| OnChange (now : nat -> N) (files : option (list File))
| OnDrop (now : nat -> N) (files : option (list File))
| OnDragOver
| OnDragLeave
| ClickRemove (fileId : string)
| ClickMerge (PDFLib : PDFLibGlobal Page)
| ClickClear.

Arguments OnChange {Page} now files.
Arguments OnDrop {Page} now files.
Arguments OnDragOver {Page}.
Arguments OnDragLeave {Page}.
Arguments ClickRemove {Page} fileId.
Arguments ClickMerge {Page} PDFLib.
Arguments ClickClear {Page}.

Definition dispatch {Page} (a : Action Page) (st : AppState) : AppState :=
  match a with
  | OnChange now files => handleFileChange now files st
  | OnDrop now files => handleDrop now files st
  | OnDragOver => handleDragOver st
  | OnDragLeave => handleDragLeave st
  | ClickRemove fileId => handleRemoveFile fileId st
  | ClickMerge PDFLib => snd (handleMergePdfs PDFLib st)
  | ClickClear => handleClearAll st
  end.

(** The state after a sequence of user actions. *)
Definition run {Page} (actions : list (Action Page)) (st : AppState) : AppState :=
  fold_left (fun st a => dispatch a st) actions st.

(** An entry as the ingestion handlers build it: it wraps a PDF-typed file,
    carries that file's name, and its identifier is the name, a dash and a
    decimal timestamp. *)
Definition builtByIngestion (pf : ProcessedFile) : Prop :=
  isPdf (file pf) = true /\
  pf_name pf = name (file pf) /\
  exists t : N, id pf = name (file pf) ++ "-" ++ decimal t.

(** The lookup [prevFiles.find(pf => pf.name === nf.name)] for a file of the
    batch. *)
Definition nameStored (prevFiles : list ProcessedFile) (f : File) : bool :=
  existsb (fun pf => pf_name pf =? name f) prevFiles.

(** The events one file causes in a merge that gets past it. *)
Definition fileEvents {Page} (lib : PDFLibrary Page) (f : File) : list Event :=
  if isPdf f then
    ReadFile (name f) :: PdfLib CallLoad :: PdfLib CallGetPageIndices
      :: PdfLib CallCopyPages :: repeat (PdfLib CallAddPage) (pageCount lib f)
  else [ConsoleWarn ("Omitiendo archivo no PDF: " ++ name f)].

Definition isConsoleWarn (ev : Event) : bool :=
  match ev with
  | ConsoleWarn _ => true
  | _ => false
  end.

(** Whether a character occurs nowhere in a string. *)
Fixpoint lacks (c : ascii) (s : string) : bool :=
  match s with
  | EmptyString => true
  | String d rest => negb (Ascii.eqb d c) && lacks c rest
  end.

(** ** Reasoning about logged, failing computations *)

Lemma outcome_bind {A B} (m : M A) (k : A -> M B) :
  outcome (bind m k) =
  match outcome m with
  | inl e => inl e
  | inr a => outcome (k a)
  end.
Proof.
  destruct m as [t [e | a]]; simpl; [reflexivity |].
  destruct (k a) as [t' r]; reflexivity.
Qed.

Lemma trace_bind {A B} (m : M A) (k : A -> M B) :
  trace (bind m k) =
  (trace m ++ match outcome m with
              | inl _ => []
              | inr a => trace (k a)
              end)%list.
Proof.
  destruct m as [t [e | a]]; simpl.
  - now rewrite app_nil_r.
  - destruct (k a) as [t' r]; reflexivity.
Qed.

Lemma outcome_try_catch {A} (body : M A) (handler : Thrown -> M A) :
  outcome (try_catch body handler) =
  match outcome body with
  | inl e => outcome (handler e)
  | inr a => inr a
  end.
Proof.
  destruct body as [t [e | a]]; simpl; [| reflexivity].
  destruct (handler e) as [t' r]; reflexivity.
Qed.

Lemma trace_try_catch {A} (body : M A) (handler : Thrown -> M A) :
  trace (try_catch body handler) =
  (trace body ++ match outcome body with
                 | inl e => trace (handler e)
                 | inr _ => []
                 end)%list.
Proof.
  destruct body as [t [e | a]]; simpl.
  - destruct (handler e) as [t' r]; reflexivity.
  - now rewrite app_nil_r.
Qed.

(** ** The merge loop, file by file *)

Section MergeFacts.

Context {Page : Type}.
Variable lib : PDFLibrary Page.

Lemma forEachAddPage_outcome (copiedPages : list Page) :
  forall mergedPdf,
    outcome (forEachAddPage mergedPdf copiedPages)
    = inr (withPages mergedPdf copiedPages).
Proof.
  induction copiedPages as [| page rest IH]; intros mergedPdf.
  - unfold withPages; simpl. rewrite app_nil_r. now destruct mergedPdf.
  - cbn [forEachAddPage]. rewrite outcome_bind. cbn [addPage outcome snd emit bind ret].
    rewrite IH. unfold withPages; simpl. now rewrite <- app_assoc.
Qed.

Lemma pagesAt_seq_app (pre ps : list Page) :
  pagesAt (pre ++ ps) (seq (length pre) (length ps)) = Some ps.
Proof.
  revert pre. induction ps as [| p ps IH]; intros pre; [reflexivity |].
  cbn [length seq pagesAt].
  rewrite nth_error_app2, Nat.sub_diag by lia. cbn [nth_error].
  replace (pre ++ p :: ps)%list with ((pre ++ [p]) ++ ps)%list
    by now rewrite <- app_assoc.
  replace (S (length pre)) with (length (pre ++ [p])%list)
    by (rewrite length_app; simpl; lia).
  now rewrite IH.
Qed.

Lemma pagesAt_all (ps : list Page) :
  pagesAt ps (seq 0 (length ps)) = Some ps.
Proof. exact (pagesAt_seq_app [] ps). Qed.

(** One run of the [try] block: either every page of the file is appended
    to [mergedPdf], or an exception leaves the block. *)
Lemma loadAndCopy_outcome (mergedPdf : PDFDocument Page) (buf : ArrayBuffer) :
  outcome (loadAndCopy lib mergedPdf buf) =
  match parse lib buf with
  | inl e => inl e
  | inr doc =>
      match copyFault doc with
      | Some e => inl e
      | None => inr (withPages mergedPdf (docPages doc))
      end
  end.
Proof.
  unfold loadAndCopy. rewrite outcome_bind.
  unfold load. rewrite outcome_bind. cbn [emit outcome snd].
  destruct (parse lib buf) as [e | doc]; [reflexivity |].
  cbn [ret outcome snd]. rewrite outcome_bind. cbn [getPageIndices emit ret bind outcome snd].
  rewrite outcome_bind. unfold copyPages. rewrite outcome_bind. cbn [emit outcome snd].
  destruct (copyFault doc) as [e |]; [reflexivity |].
  rewrite pagesAt_all. cbn [ret outcome snd].
  apply forEachAddPage_outcome.
Qed.

(** The loop, one file at a time. *)
Lemma forOfFiles_cons (f : File) (rest : list File) (mergedPdf : PDFDocument Page) :
  outcome (forOfFiles lib (f :: rest) mergedPdf) =
  if isPdf f then
    match content f with
    | inl msg => inl (DOMException msg)
    | inr _ =>
        match pagesOf lib f with
        | Some ps => outcome (forOfFiles lib rest (withPages mergedPdf ps))
        | None => inl (Error (processErrorMessage (name f)))
        end
    end
  else outcome (forOfFiles lib rest mergedPdf).
Proof.
  cbn [forOfFiles]. destruct (isPdf f); cbn [negb].
  - rewrite outcome_bind. unfold arrayBuffer, pagesOf.
    rewrite outcome_bind. cbn [emit outcome snd].
    destruct (content f) as [msg | buf]; [reflexivity |].
    cbn [ret outcome snd]. rewrite outcome_bind, outcome_try_catch, loadAndCopy_outcome.
    destruct (parse lib buf) as [e | doc].
    + rewrite outcome_bind. reflexivity.
    + destruct (copyFault doc) as [e |].
      * rewrite outcome_bind. reflexivity.
      * reflexivity.
  - rewrite outcome_bind. reflexivity.
Qed.

Lemma forOfFiles_nil (mergedPdf : PDFDocument Page) :
  outcome (forOfFiles lib [] mergedPdf) = inr mergedPdf.
Proof. reflexivity. Qed.

End MergeFacts.

(** ** What the whole merge returns *)

Section MergeResults.

Context {Page : Type}.
Variable lib : PDFLibrary Page.

Lemma withPages_app (d : PDFDocument Page) (ps qs : list Page) :
  withPages (withPages d ps) qs = withPages d (ps ++ qs).
Proof. unfold withPages; simpl. now rewrite app_assoc. Qed.

Lemma passes_cases (f : File) :
  passes lib f = true ->
  isPdf f = false \/
  (isPdf f = true /\ exists buf ps,
      content f = inr buf /\ pagesOf lib f = Some ps).
Proof.
  unfold passes, validPdf. destruct (isPdf f); simpl; [| now left].
  intros H. right. split; [reflexivity |].
  unfold pagesOf in *. destruct (content f) as [msg | buf]; [discriminate |].
  exists buf. destruct (parse lib buf) as [e | doc]; [discriminate |].
  destruct (copyFault doc); [discriminate |]. now exists (docPages doc).
Qed.

(** When every file is skipped or merged, the loop ends with the pages of
    the PDF-typed files appended in the order of the files. *)
Lemma forOfFiles_passing (files : list File) :
  forallb (passes lib) files = true ->
  forall mergedPdf,
    outcome (forOfFiles lib files mergedPdf)
    = inr (withPages mergedPdf (mergedPages lib files)).
Proof.
  unfold mergedPages.
  induction files as [| f rest IH]; intros Hall mergedPdf.
  - simpl. unfold withPages. rewrite app_nil_r. now destruct mergedPdf.
  - cbn [forallb] in Hall. apply andb_prop in Hall as [Hf Hrest].
    rewrite forOfFiles_cons. cbn [filter].
    destruct (passes_cases f Hf) as [Hno | (Hpdf & buf & ps & Hbuf & Hps)].
    + rewrite Hno. now apply IH.
    + rewrite Hpdf, Hbuf, Hps, (IH Hrest). cbn [map concat].
      unfold pagesOrNone at 2. rewrite Hps. now rewrite withPages_app.
Qed.

(** The loop stops at the first file its [try] block fails on. *)
Lemma forOfFiles_offending (pre post : list File) (f : File) :
  forallb (passes lib) pre = true ->
  failsToLoadOrCopy lib f = true ->
  forall mergedPdf,
    outcome (forOfFiles lib (pre ++ f :: post) mergedPdf)
    = inl (Error (processErrorMessage (name f))).
Proof.
  intros Hpre Hf. induction pre as [| g pre IH]; intros mergedPdf.
  - rewrite app_nil_l, forOfFiles_cons.
    unfold failsToLoadOrCopy in Hf. unfold pagesOf.
    destruct (isPdf f); [| discriminate]. simpl in Hf.
    destruct (content f) as [msg | buf]; [discriminate |].
    destruct (parse lib buf) as [e | doc]; [reflexivity |].
    destruct (copyFault doc); [reflexivity | discriminate].
  - cbn [forallb] in Hpre. apply andb_prop in Hpre as [Hg Hpre].
    rewrite <- app_comm_cons, forOfFiles_cons.
    destruct (passes_cases g Hg) as [Hno | (Hpdf & buf & ps & Hbuf & Hps)].
    + rewrite Hno. now apply IH.
    + rewrite Hpdf, Hbuf, Hps. now apply IH.
Qed.

(** Entries of another type do not change what the loop returns. *)
Lemma forOfFiles_filter (files : list File) :
  forall mergedPdf,
    outcome (forOfFiles lib files mergedPdf)
    = outcome (forOfFiles lib (filter isPdf files) mergedPdf).
Proof.
  induction files as [| f rest IH]; intros mergedPdf; [reflexivity |].
  cbn [filter]. destruct (isPdf f) eqn:Hpdf.
  - rewrite !forOfFiles_cons, Hpdf.
    destruct (content f); [reflexivity |].
    destruct (pagesOf lib f); [apply IH | reflexivity].
  - rewrite forOfFiles_cons, Hpdf. apply IH.
Qed.

(** For a skipped entry the loop logs one console warning and goes on with
    [mergedPdf] as it was. *)
Lemma forOfFiles_skip (f : File) (rest : list File) (mergedPdf : PDFDocument Page) :
  isPdf f = false ->
  forOfFiles lib (f :: rest) mergedPdf
  = (ConsoleWarn ("Omitiendo archivo no PDF: " ++ name f)
       :: trace (forOfFiles lib rest mergedPdf),
     outcome (forOfFiles lib rest mergedPdf)).
Proof.
  intros Hpdf. cbn [forOfFiles]. rewrite Hpdf. cbn [negb].
  unfold bind, emit. now destruct (forOfFiles lib rest mergedPdf).
Qed.

(** What the loop can throw: a rejected read, or the error naming a file. *)
Lemma forOfFiles_throws (files : list File) :
  forall mergedPdf e,
    outcome (forOfFiles lib files mergedPdf) = inl e ->
    (exists msg, e = DOMException msg) \/
    (exists f, In f files /\ e = Error (processErrorMessage (name f))).
Proof.
  induction files as [| f rest IH]; intros mergedPdf e H; [discriminate |].
  rewrite forOfFiles_cons in H.
  assert (Hrest : forall d, outcome (forOfFiles lib rest d) = inl e ->
            (exists msg, e = DOMException msg) \/
            (exists g, In g (f :: rest) /\ e = Error (processErrorMessage (name g)))).
  { intros d Hd. destruct (IH d e Hd) as [Hdom | (g & Hin & Hg)];
      [now left | right; exists g; split; [now right | exact Hg]]. }
  destruct (isPdf f); [| now apply (Hrest mergedPdf)].
  destruct (content f) as [msg | buf].
  - left. exists msg. now inversion H.
  - destruct (pagesOf lib f) as [ps |]; [now apply (Hrest (withPages mergedPdf ps)) |].
    right. exists f. split; [now left | now inversion H].
Qed.

(** [mergeBody] is the loop followed by the page-count check. *)
Lemma mergeBody_outcome (files : list File) :
  outcome (mergeBody lib files) =
  match outcome (forOfFiles lib files emptyDocument) with
  | inl e => inl e
  | inr mergedPdf =>
      if (length (docPages mergedPdf) =? 0)%nat
      then inl (Error noPagesMessage)
      else inr (serialize lib mergedPdf)
  end.
Proof.
  unfold mergeBody. rewrite outcome_bind. cbn [create emit ret bind outcome snd].
  rewrite outcome_bind. fold (@emptyDocument Page).
  destruct (outcome (forOfFiles lib files emptyDocument)) as [e | d]; [reflexivity |].
  rewrite outcome_bind. cbn [getPageCount emit ret bind outcome snd].
  now destruct (length (docPages d) =? 0)%nat.
Qed.

Lemma mergePdfs_nonempty (files : list File) :
  files <> [] ->
  mergePdfs (Available lib) (Some files) = mergeBody lib files.
Proof. destruct files; [congruence | reflexivity]. Qed.

(** With every file skipped or merged and at least one page in the end, the
    merge returns the serialised concatenation. *)
Lemma mergePdfs_passing (files : list File) :
  forallb (passes lib) files = true ->
  mergedPages lib files <> [] ->
  outcome (mergePdfs (Available lib) (Some files))
  = inr (serialize lib {| docPages := mergedPages lib files; copyFault := None |}).
Proof.
  intros Hall Hpages.
  assert (Hne : files <> []) by (intros ->; now apply Hpages).
  rewrite (mergePdfs_nonempty files Hne), mergeBody_outcome.
  rewrite (forOfFiles_passing files Hall). unfold withPages, emptyDocument.
  cbn [docPages copyFault app].
  destruct (mergedPages lib files) as [| p ps]; [congruence | reflexivity].
Qed.

Lemma validPdf_passes (f : File) : validPdf lib f = true -> passes lib f = true.
Proof. unfold passes. intros ->. apply orb_true_r. Qed.

Lemma validPdf_isPdf (f : File) : validPdf lib f = true -> isPdf f = true.
Proof. unfold validPdf. intros H. now apply andb_prop in H. Qed.

Lemma filter_isPdf_valid (files : list File) :
  forallb (validPdf lib) files = true -> filter isPdf files = files.
Proof.
  induction files as [| f rest IH]; [reflexivity |].
  cbn [forallb filter]. intros H. apply andb_prop in H as [Hf Hrest].
  rewrite (validPdf_isPdf f Hf). now rewrite IH.
Qed.

Lemma length_concat_pages (files : list File) :
  length (concat (map (pagesOrNone lib) files))
  = list_sum (map (pageCount lib) files).
Proof.
  induction files as [| f rest IH]; [reflexivity |].
  cbn [map concat list_sum]. rewrite length_app, IH.
  unfold pagesOrNone, pageCount. now destruct (pagesOf lib f).
Qed.

(** A buffer is only ever returned for a complete merge: every file was
    skipped for its type or merged whole. *)
Lemma forOfFiles_returns (files : list File) :
  forall mergedPdf d,
    outcome (forOfFiles lib files mergedPdf) = inr d ->
    forallb (passes lib) files = true.
Proof.
  induction files as [| f rest IH]; intros mergedPdf d H; [reflexivity |].
  rewrite forOfFiles_cons in H. cbn [forallb]. unfold passes at 1, validPdf.
  destruct (isPdf f); cbn [negb orb andb].
  - destruct (content f); [discriminate |].
    destruct (pagesOf lib f) as [ps |]; [| discriminate]. now apply IH in H.
  - now apply IH in H.
Qed.

Lemma mergePdfs_returns (files : list File) (buf : Uint8Array) :
  outcome (mergePdfs (Available lib) (Some files)) = inr buf ->
  forallb (passes lib) files = true /\
  buf = serialize lib {| docPages := mergedPages lib files; copyFault := None |}.
Proof.
  intros H. destruct files as [| f rest]; [discriminate |].
  rewrite mergePdfs_nonempty, mergeBody_outcome in H by discriminate.
  destruct (outcome (forOfFiles lib (f :: rest) emptyDocument)) as [e | d] eqn:Hloop;
    [discriminate |].
  pose proof (forOfFiles_returns _ _ _ Hloop) as Hall. split; [exact Hall |].
  rewrite (forOfFiles_passing _ Hall) in Hloop. inversion Hloop; subst d.
  unfold withPages, emptyDocument in H. cbn [docPages copyFault] in H.
  rewrite app_nil_l in H.
  destruct (length (mergedPages lib (f :: rest)) =? 0)%nat; [discriminate |].
  now inversion H.
Qed.

(** Where every PDF-typed file can be read, a list that holds a failing file
    has a first one, and the files before it are skipped or merged. *)
Lemma first_failing_file (files : list File) :
  (forall g, In g files -> isPdf g = true -> exists buf, content g = inr buf) ->
  existsb (failsToLoadOrCopy lib) files = true ->
  exists pre f post,
    files = (pre ++ f :: post)%list /\
    forallb (passes lib) pre = true /\
    failsToLoadOrCopy lib f = true.
Proof.
  induction files as [| g rest IH]; intros Hread Hex; [discriminate |].
  destruct (failsToLoadOrCopy lib g) eqn:Hg.
  - exists [], g, rest. now repeat split.
  - cbn [existsb] in Hex. rewrite Hg in Hex. cbn [orb] in Hex.
    destruct IH as (pre & f & post & -> & Hpre & Hf);
      [intros h Hin; apply Hread; now right | exact Hex |].
    exists (g :: pre), f, post. repeat split; [| exact Hf].
    cbn [forallb]. rewrite Hpre, andb_true_r.
    unfold passes, validPdf. unfold failsToLoadOrCopy in Hg. unfold pagesOf.
    destruct (isPdf g) eqn:Hpdf; [| reflexivity]. cbn [negb orb andb] in *.
    destruct (Hread g (or_introl eq_refl) Hpdf) as [buf Hbuf]. rewrite Hbuf in *.
    destruct (parse lib buf) as [e | doc]; [discriminate |].
    now destruct (copyFault doc).
Qed.

End MergeResults.

(** ** The selection store *)

Lemma appendNew_from (newFiles prevFiles acc : list ProcessedFile) :
  fold_left
    (fun updatedFiles nf =>
       match find (fun pf => pf_name pf =? pf_name nf) prevFiles with
       | Some _ => updatedFiles
       | None => (updatedFiles ++ [nf])%list
       end)
    newFiles acc
  = (acc ++ filter (isNewName prevFiles) newFiles)%list.
Proof.
  revert acc. induction newFiles as [| nf rest IH]; intros acc.
  - simpl. now rewrite app_nil_r.
  - cbn [fold_left filter]. rewrite IH. unfold isNewName at 2.
    destruct (find _ prevFiles); [reflexivity |].
    now rewrite <- app_assoc.
Qed.

(** The updater appends, in batch order, the entries whose name the store
    did not hold before the batch; the batch itself is not searched. *)
Lemma appendNew_closed_form (newFiles prevFiles : list ProcessedFile) :
  appendNew newFiles prevFiles
  = (prevFiles ++ filter (isNewName prevFiles) newFiles)%list.
Proof. apply appendNew_from. Qed.

Lemma isNewName_false_iff (prevFiles : list ProcessedFile) (nf : ProcessedFile) :
  isNewName prevFiles nf = false <-> In (pf_name nf) (map pf_name prevFiles).
Proof.
  unfold isNewName. split.
  - destruct (find _ prevFiles) as [pf |] eqn:Hfind; [intros _ | discriminate].
    apply find_some in Hfind as [Hin Heq]. apply String.eqb_eq in Heq.
    rewrite <- Heq. now apply in_map.
  - intros Hin. apply in_map_iff in Hin as (pf & Heq & Hin).
    destruct (find _ prevFiles) eqn:Hfind; [reflexivity |].
    apply (find_none _ _ Hfind) in Hin. rewrite Heq, String.eqb_refl in Hin.
    discriminate.
Qed.

(** Across batches the first entry of a name wins: a name the store holds
    gains no second entry from a later batch. *)
Lemma appendNew_existing_name (newFiles prevFiles : list ProcessedFile) (n : string) :
  In n (map pf_name prevFiles) ->
  filter (fun pf => pf_name pf =? n) (appendNew newFiles prevFiles)
  = filter (fun pf => pf_name pf =? n) prevFiles.
Proof.
  intros Hin. rewrite appendNew_closed_form, filter_app.
  replace (filter (fun pf => pf_name pf =? n) (filter (isNewName prevFiles) newFiles))
    with (@nil ProcessedFile); [now rewrite app_nil_r |].
  induction newFiles as [| nf rest IH]; [reflexivity |].
  cbn [filter]. destruct (isNewName prevFiles nf) eqn:Hnew; [| exact IH].
  cbn [filter]. destruct (pf_name nf =? n) eqn:Heq; [| exact IH].
  apply String.eqb_eq in Heq. subst n.
  apply isNewName_false_iff in Hin. congruence.
Qed.

Lemma appendNew_In (newFiles prevFiles : list ProcessedFile) (pf : ProcessedFile) :
  In pf (appendNew newFiles prevFiles) ->
  In pf prevFiles \/ In pf newFiles.
Proof.
  rewrite appendNew_closed_form, in_app_iff, filter_In. tauto.
Qed.

Lemma length_mapFrom {A B} (f : nat -> A -> B) (xs : list A) :
  forall i, length (mapFrom i f xs) = length xs.
Proof. induction xs as [| x rest IH]; intros i; simpl; [| rewrite IH]; reflexivity. Qed.

Lemma map_mapFrom {A B C} (g : B -> C) (f : nat -> A -> B) (h : A -> C) (xs : list A) :
  (forall i x, g (f i x) = h x) ->
  forall i, map g (mapFrom i f xs) = map h xs.
Proof.
  intros Hg. induction xs as [| x rest IH]; intros i; simpl; [reflexivity |].
  now rewrite Hg, IH.
Qed.

Lemma length_toProcessedFiles (now : nat -> N) (files : list File) :
  length (toProcessedFiles now files) = length (filter isPdf files).
Proof. apply length_mapFrom. Qed.

Lemma files_of_toProcessedFiles (now : nat -> N) (files : list File) :
  map file (toProcessedFiles now files) = filter isPdf files.
Proof.
  unfold toProcessedFiles.
  rewrite (map_mapFrom file _ (fun x => x)) by reflexivity. apply map_id.
Qed.

Lemma names_of_toProcessedFiles (now : nat -> N) (files : list File) :
  map pf_name (toProcessedFiles now files) = map name (filter isPdf files).
Proof. unfold toProcessedFiles. now apply map_mapFrom. Qed.

Lemma filter_isPdf_idem (files : list File) :
  filter isPdf (filter isPdf files) = filter isPdf files.
Proof.
  induction files as [| f rest IH]; [reflexivity |].
  cbn [filter]. destruct (isPdf f) eqn:H; [| exact IH].
  cbn [filter]. now rewrite H, IH.
Qed.

Lemma filter_isPdf_shorter (files : list File) :
  existsb (fun f => negb (isPdf f)) files = true ->
  length (filter isPdf files) < length files.
Proof.
  induction files as [| f rest IH]; [discriminate |].
  cbn [existsb filter length].
  pose proof (filter_length_le isPdf rest) as Hle.
  destruct (isPdf f); cbn [negb orb length]; [intros H; apply IH in H |]; lia.
Qed.

(** What the two ingestion handlers do to each state cell. *)
Lemma handleFileChange_selectedFiles now files st :
  selectedFiles (handleFileChange now (Some files) st)
  = appendNew (toProcessedFiles now files) (selectedFiles st).
Proof.
  unfold handleFileChange.
  now destruct (negb (length (toProcessedFiles now files) =? length files)%nat).
Qed.

Lemma handleDrop_selectedFiles now files st :
  selectedFiles (handleDrop now (Some files) st)
  = appendNew (toProcessedFiles now files) (selectedFiles st).
Proof.
  unfold handleDrop.
  now destruct (negb (length (toProcessedFiles now files) =? length files)%nat).
Qed.

Lemma handleFileChange_error now files st :
  error (handleFileChange now (Some files) st)
  = if (length (filter isPdf files) =? length files)%nat
    then None else Some notPdfWarning.
Proof.
  unfold handleFileChange. rewrite length_toProcessedFiles.
  now destruct (length (filter isPdf files) =? length files)%nat.
Qed.

Lemma handleDrop_error now files st :
  error (handleDrop now (Some files) st)
  = if (length (filter isPdf files) =? length files)%nat
    then None else Some notPdfWarning.
Proof.
  unfold handleDrop. rewrite length_toProcessedFiles.
  now destruct (length (filter isPdf files) =? length files)%nat.
Qed.

(** Neither ingestion handler writes [mergedPdfUrl]. *)
Lemma handleFileChange_mergedPdfUrl now files st :
  mergedPdfUrl (handleFileChange now files st) = mergedPdfUrl st.
Proof.
  unfold handleFileChange. destruct files as [files |]; [| reflexivity].
  now destruct (negb (length (toProcessedFiles now files) =? length files)%nat).
Qed.

Lemma handleDrop_mergedPdfUrl now files st :
  mergedPdfUrl (handleDrop now files st) = mergedPdfUrl st.
Proof.
  unfold handleDrop. destruct files as [files |]; [| reflexivity].
  now destruct (negb (length (toProcessedFiles now files) =? length files)%nat).
Qed.

(** Removing an entry leaves no merged URL behind. *)
Lemma handleRemoveFile_mergedPdfUrl fileId st :
  mergedPdfUrl (handleRemoveFile fileId st) = None.
Proof.
  unfold handleRemoveFile. destruct (mergedPdfUrl st) eqn:H; [reflexivity |].
  exact H.
Qed.

Lemma handleRemoveFile_selectedFiles fileId st :
  selectedFiles (handleRemoveFile fileId st)
  = filter (fun f => negb (id f =? fileId)) (selectedFiles st).
Proof. unfold handleRemoveFile. now destruct (mergedPdfUrl st). Qed.

(** Removing an identifier the store does not hold leaves the store as it
    was. *)
Lemma handleRemoveFile_absent fileId st :
  ~ In fileId (map id (selectedFiles st)) ->
  selectedFiles (handleRemoveFile fileId st) = selectedFiles st.
Proof.
  rewrite handleRemoveFile_selectedFiles.
  induction (selectedFiles st) as [| pf rest IH]; [reflexivity |].
  cbn [map In filter]. intros Hnot.
  destruct (id pf =? fileId) eqn:Heq.
  - apply String.eqb_eq in Heq. tauto.
  - cbn [negb]. rewrite IH; [reflexivity | tauto].
Qed.

Lemma isNewName_nameStored (prevFiles : list ProcessedFile) (nf : ProcessedFile) :
  isNewName prevFiles nf
  = negb (existsb (fun pf => pf_name pf =? pf_name nf) prevFiles).
Proof.
  unfold isNewName. induction prevFiles as [| pf rest IH]; [reflexivity |].
  cbn [find existsb]. destruct (pf_name pf =? pf_name nf); [reflexivity | exact IH].
Qed.

Lemma filter_twice {A} (p q : A -> bool) (l : list A) :
  filter p (filter q l) = filter (fun x => q x && p x) l.
Proof.
  induction l as [| x rest IH]; [reflexivity |].
  cbn [filter]. destruct (q x); cbn [andb filter]; [| exact IH].
  destruct (p x); now rewrite IH.
Qed.

Lemma files_of_new_entries (now : nat -> N) (prevFiles : list ProcessedFile)
    (batch : list File) :
  map file (filter (isNewName prevFiles) (toProcessedFiles now batch))
  = filter (fun f => isPdf f && negb (nameStored prevFiles f)) batch.
Proof.
  rewrite <- filter_twice. unfold toProcessedFiles.
  generalize (filter isPdf batch) as accepted. generalize 0 as i.
  intros i accepted. revert i.
  induction accepted as [| f rest IH]; intros i; [reflexivity |].
  cbn [mapFrom filter]. rewrite isNewName_nameStored. cbn [pf_name].
  fold (nameStored prevFiles f).
  destruct (nameStored prevFiles f); cbn [negb map]; now rewrite IH.
Qed.

Lemma filter_none {A} (p : A -> bool) (l : list A) :
  (forall x, In x l -> p x = false) -> filter p l = [].
Proof.
  induction l as [| x rest IH]; intros H; [reflexivity |].
  cbn [filter]. rewrite (H x (or_introl eq_refl)).
  apply IH. intros y Hy. apply H. now right.
Qed.

(** ** The merge handler *)

Lemma handleMergePdfs_success {Page} (PDFLib : PDFLibGlobal Page) st bytes :
  2 <= length (selectedFiles st) ->
  outcome (mergePdfs PDFLib (Some (map file (selectedFiles st)))) = inr bytes ->
  snd (handleMergePdfs PDFLib st)
  = {| selectedFiles := selectedFiles st;
       mergedPdfUrl :=
         Some (createObjectURL {| blobParts := bytes; blobType := "application/pdf" |});
       isMerging := false;
       error := None;
       dragOver := dragOver st |}.
Proof.
  intros Hlen Hout. unfold handleMergePdfs.
  destruct (Nat.ltb_spec (length (selectedFiles st)) 2) as [Hlt | _]; [lia |].
  cbn [setIsMerging setError setMergedPdfUrl selectedFiles].
  destruct (mergePdfs PDFLib (Some (map file (selectedFiles st)))) as [t r].
  cbn [outcome snd] in Hout. subst r. reflexivity.
Qed.

Lemma handleMergePdfs_failure {Page} (PDFLib : PDFLibGlobal Page) st err :
  2 <= length (selectedFiles st) ->
  outcome (mergePdfs PDFLib (Some (map file (selectedFiles st)))) = inl err ->
  snd (handleMergePdfs PDFLib st)
  = {| selectedFiles := selectedFiles st;
       mergedPdfUrl := None;
       isMerging := false;
       error := Some (messageOf err);
       dragOver := dragOver st |}.
Proof.
  intros Hlen Hout. unfold handleMergePdfs.
  destruct (Nat.ltb_spec (length (selectedFiles st)) 2) as [Hlt | _]; [lia |].
  cbn [setIsMerging setError setMergedPdfUrl selectedFiles].
  destruct (mergePdfs PDFLib (Some (map file (selectedFiles st)))) as [t r].
  cbn [outcome snd] in Hout. subst r. reflexivity.
Qed.

(** * The claims *)

(** ** C1 *)

(** C1, at a concrete input. [a.pdf] and [b.pdf] are selected and merged, so
    the state holds a merged URL; then [c.pdf] is added. The store now holds
    three files, yet the merged URL is still the one of the two-file merge
    and the download action still offers that buffer: [handleFileChange]
    (and [handleDrop] likewise) never writes [mergedPdfUrl], although
    [handleRemoveFile] clears it with the remark that the merged PDF is
    cleared if files change. *)
Theorem add_after_merge_keeps_stale_url :
  let st0 := handleFileChange Toy.clock (Some [Toy.a_pdf; Toy.b_pdf]) initialState in
  let st1 := snd (handleMergePdfs (Available Toy.lib) st0) in
  let st2 := handleFileChange Toy.clock (Some [Toy.c_pdf]) st1 in
  let st2' := handleDrop Toy.clock (Some [Toy.c_pdf]) st1 in
  let stale :=
    createObjectURL
      {| blobParts := [Byte.x01; Byte.x0a; Byte.x0b; Byte.x14; Byte.x15; Byte.x16];
         blobType := "application/pdf" |} in
  mergedPdfUrl st1 = Some stale /\
  map pf_name (selectedFiles st2) = ["a.pdf"; "b.pdf"; "c.pdf"] /\
  mergedPdfUrl st2 = Some stale /\
  mergedPdfUrl st2' = Some stale /\
  handleDownloadMergedPdf 1700000000500 st2
  = Some {| href := stale; download := "documento_fusionado_1700000000500.pdf" |} /\
  mergedPdfUrl (handleRemoveFile "b.pdf-1700000000001" st1) = None.
Proof. vm_compute. repeat split. Qed.

(** ** C2 *)

(** C2 as stated fails: two files that are declared as PDF, parse and copy
    without error, but hold no page, meet the zero-page check after the loop,
    and no buffer is returned. *)
Lemma two_empty_pdfs_not_merged :
  let files := [Toy.empty_pdf "e.pdf"; Toy.empty_pdf "f.pdf"] in
  2 <= length files /\
  forallb (validPdf Toy.lib) files = true /\
  list_sum (map (pageCount Toy.lib) files) = 0 /\
  outcome (mergePdfs (Available Toy.lib) (Some files)) = inl (Error noPagesMessage) /\
  ~ exists buf, outcome (mergePdfs (Available Toy.lib) (Some files)) = inr buf.
Proof.
  cbn zeta. split; [simpl; lia |]. repeat (split; [reflexivity |]).
  intros [buf H]. vm_compute in H. discriminate.
Qed.

Lemma mergePdfs_passing_no_pages {Page} (lib : PDFLibrary Page)
    (files : list File) :
  files <> [] ->
  forallb (passes lib) files = true ->
  mergedPages lib files = [] ->
  outcome (mergePdfs (Available lib) (Some files)) = inl (Error noPagesMessage).
Proof.
  intros Hne Hall Hnil.
  rewrite (mergePdfs_nonempty lib files Hne), mergeBody_outcome.
  now rewrite (forOfFiles_passing lib files Hall), Hnil.
Qed.

(** C2, amended: for at least two valid PDF files, when they hold at least
    one page between them [mergePdfs] returns the serialisation of a document
    whose pages are the pages of the first file, then those of the second,
    and so on, each file's pages in their own order, and the number of pages
    is the sum of the files' page counts; when they hold no page at all it
    throws the no-pages error instead. *)
Theorem mergePdfs_concatenates_pages {Page} (lib : PDFLibrary Page)
    (files : list File) :
  2 <= length files ->
  forallb (validPdf lib) files = true ->
  let pages := concat (map (pagesOrNone lib) files) in
  length pages = list_sum (map (pageCount lib) files) /\
  (list_sum (map (pageCount lib) files) <> 0 ->
   outcome (mergePdfs (Available lib) (Some files))
   = inr (serialize lib {| docPages := pages; copyFault := None |})) /\
  (list_sum (map (pageCount lib) files) = 0 ->
   outcome (mergePdfs (Available lib) (Some files))
   = inl (Error "No se fusionaron páginas con éxito. Por favor, revisa tus archivos PDF.")).
Proof.
  intros Hlen2 Hvalid pages.
  assert (Hlen : length pages = list_sum (map (pageCount lib) files))
    by apply length_concat_pages.
  assert (Hmerged : mergedPages lib files = pages).
  { unfold mergedPages. now rewrite (filter_isPdf_valid lib files Hvalid). }
  assert (Hpass : forallb (passes lib) files = true).
  { rewrite forallb_forall in *. intros f Hin. apply validPdf_passes. now apply Hvalid. }
  split; [exact Hlen |]. split.
  - intros Hsum. rewrite <- Hmerged. apply mergePdfs_passing; [exact Hpass |].
    rewrite Hmerged. intros Hnil. rewrite Hnil in Hlen. simpl in Hlen. congruence.
  - intros Hsum. apply mergePdfs_passing_no_pages; [| exact Hpass |].
    + intros ->. simpl in Hlen2. lia.
    + rewrite Hmerged. apply length_zero_iff_nil. congruence.
Qed.

(** The scenario of the design note: [a.pdf] (2 pages) and [b.pdf] (3 pages)
    give 5 pages, those of [a.pdf] first; two files without a page give the
    no-pages error. *)
Lemma mergePdfs_concatenates_pages_witness :
  outcome (mergePdfs (Available Toy.lib) (Some [Toy.a_pdf; Toy.b_pdf]))
  = inr [Byte.x01; Byte.x0a; Byte.x0b; Byte.x14; Byte.x15; Byte.x16] /\
  outcome (mergePdfs (Available Toy.lib)
             (Some [Toy.empty_pdf "e.pdf"; Toy.empty_pdf "f.pdf"]))
  = inl (Error "No se fusionaron páginas con éxito. Por favor, revisa tus archivos PDF.").
Proof.
  split.
  - apply (mergePdfs_concatenates_pages Toy.lib [Toy.a_pdf; Toy.b_pdf]);
      [simpl; lia | reflexivity | simpl; lia].
  - apply (mergePdfs_concatenates_pages Toy.lib
             [Toy.empty_pdf "e.pdf"; Toy.empty_pdf "f.pdf"]);
      [simpl; lia | reflexivity | reflexivity].
Defined.

(** ** C3 *)

Lemma find_first {A} (p : A -> bool) (l : list A) (x : A) :
  find p l = Some x ->
  exists pre post,
    l = (pre ++ x :: post)%list /\
    forallb (fun y => negb (p y)) pre = true /\
    p x = true.
Proof.
  induction l as [| y rest IH]; [discriminate |].
  cbn [find]. destruct (p y) eqn:Hy.
  - intros [= ->]. now exists [], rest.
  - intros H. destruct (IH H) as (pre & post & -> & Hpre & Hx).
    exists (y :: pre), post. cbn [forallb]. now rewrite Hy, Hpre.
Qed.

Lemma find_exists {A} (p : A -> bool) (l : list A) (x : A) :
  In x l -> p x = true -> exists y, find p l = Some y.
Proof.
  induction l as [| z rest IH]; [contradiction |].
  intros [-> | Hin] Hx; cbn [find].
  - rewrite Hx. now eexists.
  - destruct (p z); [now eexists | now apply IH].
Qed.

(** A file the loop does not get past is declared as PDF, and either its
    read is rejected or the [try] block fails on it. *)
Lemma not_passes_cases {Page} (lib : PDFLibrary Page) (f : File) :
  passes lib f = false ->
  isPdf f = true /\
  (failsToLoadOrCopy lib f = true \/ exists msg, content f = inl msg).
Proof.
  unfold passes, validPdf, failsToLoadOrCopy, pagesOf.
  destruct (isPdf f); cbn [negb orb andb]; [| discriminate].
  intros H. split; [reflexivity |].
  destruct (content f) as [msg | buf]; [right; now exists msg | left].
  destruct (parse lib buf) as [e | doc]; [reflexivity |].
  destruct (copyFault doc); [reflexivity | discriminate].
Qed.

(** The loop stops at the first file whose read is rejected, with the
    exception of the read. *)
Lemma forOfFiles_read_rejected {Page} (lib : PDFLibrary Page)
    (pre post : list File) (f : File) (msg : string) :
  forallb (passes lib) pre = true ->
  isPdf f = true ->
  content f = inl msg ->
  forall mergedPdf,
    outcome (forOfFiles lib (pre ++ f :: post) mergedPdf)
    = inl (DOMException msg).
Proof.
  intros Hpre Hpdf Hcontent. induction pre as [| g pre IH]; intros mergedPdf.
  - rewrite app_nil_l, forOfFiles_cons, Hpdf, Hcontent. reflexivity.
  - cbn [forallb] in Hpre. apply andb_prop in Hpre as [Hg Hpre].
    rewrite <- app_comm_cons, forOfFiles_cons.
    destruct (passes_cases lib g Hg) as [Hno | (Hgpdf & buf & ps & Hbuf & Hps)].
    + rewrite Hno. now apply IH.
    + rewrite Hgpdf, Hbuf, Hps. now apply IH.
Qed.

(** C3 as stated fails: [gone.pdf] cannot be read and [bad.pdf] is corrupt.
    The read of [gone.pdf] is rejected before the [try] block is entered, so
    the merge fails with the exception of the read, and the message the page
    shows names neither file. *)
Lemma rejected_read_names_no_file :
  let gone :=
    {| name := "gone.pdf"; type := "application/pdf";
       content := inl "The requested file could not be read" |} in
  let files := [gone; Toy.bad_pdf] in
  let st := handleFileChange Toy.clock (Some files) initialState in
  let st' := snd (handleMergePdfs (Available Toy.lib) st) in
  map file (selectedFiles st) = files /\
  failsToLoadOrCopy Toy.lib Toy.bad_pdf = true /\
  outcome (mergePdfs (Available Toy.lib) (Some files))
  = inl (DOMException "The requested file could not be read") /\
  error st' = Some "The requested file could not be read" /\
  index 0 "gone.pdf" "The requested file could not be read" = None /\
  index 0 "bad.pdf" "The requested file could not be read" = None.
Proof. cbn zeta. repeat split. Qed.

(** C3, amended: when the list holds a PDF-typed file that cannot be read,
    that the library fails to load or whose pages cannot be copied, the
    merge aborts at the first such file in list order and returns no buffer.
    If the [try] block failed on that file (corrupt or copy-restricted), the
    error thrown carries the message that names it; if its read was
    rejected, the error is the exception of the read itself. Either way
    [handleMergePdfs] stores the message of the error, leaves no merged URL
    to download and resets the in-progress flag. *)
Theorem merge_failure_names_file {Page} (lib : PDFLibrary Page)
    (st : AppState) (files : list File) (g : File) :
  map file (selectedFiles st) = files ->
  In g files ->
  passes lib g = false ->
  let message := fun fileName : string =>
    "Error al procesar " ++ fileName
      ++ ". Podría estar corrupto o protegido por contraseña sin permisos de copia." in
  exists f,
    find (fun h => negb (passes lib h)) files = Some f /\
    (failsToLoadOrCopy lib f = true \/ exists msg, content f = inl msg) /\
    (failsToLoadOrCopy lib f = true ->
     outcome (mergePdfs (Available lib) (Some files))
     = inl (Error (message (name f)))) /\
    (forall msg, content f = inl msg ->
     outcome (mergePdfs (Available lib) (Some files))
     = inl (DOMException msg)) /\
    (forall buf, outcome (mergePdfs (Available lib) (Some files)) <> inr buf) /\
    (2 <= length (selectedFiles st) ->
     let st' := snd (handleMergePdfs (Available lib) st) in
     mergedPdfUrl st' = None /\
     handleDownloadMergedPdf 0 st' = None /\
     isMerging st' = false /\
     (failsToLoadOrCopy lib f = true -> error st' = Some (message (name f))) /\
     (forall msg, content f = inl msg -> error st' = Some msg)).
Proof.
  intros Hfiles Hin Hg message.
  destruct (find_exists (fun h => negb (passes lib h)) files g Hin) as [f Hfind];
    [now rewrite Hg |].
  exists f. split; [exact Hfind |].
  destruct (find_first _ _ _ Hfind) as (pre & post & Hsplit & Hpre & Hf).
  assert (Hpre' : forallb (passes lib) pre = true).
  { rewrite forallb_forall in *. intros h Hh. specialize (Hpre h Hh).
    now destruct (passes lib h). }
  apply negb_true_iff in Hf.
  destruct (not_passes_cases lib f Hf) as [Hpdf Hcases].
  split; [exact Hcases |].
  assert (Hne : files <> []) by (rewrite Hsplit; now destruct pre).
  assert (Hfail : failsToLoadOrCopy lib f = true ->
            outcome (mergePdfs (Available lib) (Some files))
            = inl (Error (message (name f)))).
  { intros Hfl. rewrite (mergePdfs_nonempty lib files Hne), mergeBody_outcome, Hsplit.
    now rewrite (forOfFiles_offending lib pre post f Hpre' Hfl). }
  assert (Hread : forall msg, content f = inl msg ->
            outcome (mergePdfs (Available lib) (Some files))
            = inl (DOMException msg)).
  { intros msg Hmsg. rewrite (mergePdfs_nonempty lib files Hne), mergeBody_outcome, Hsplit.
    now rewrite (forOfFiles_read_rejected lib pre post f msg Hpre' Hpdf Hmsg). }
  assert (Hthrows : exists e, outcome (mergePdfs (Available lib) (Some files)) = inl e).
  { destruct Hcases as [Hfl | [msg Hmsg]]; eexists;
      [exact (Hfail Hfl) | exact (Hread msg Hmsg)]. }
  split; [exact Hfail |]. split; [exact Hread |]. split.
  - intros buf Hbuf. destruct Hthrows as [e He]. congruence.
  - intros Hlen st'. subst st'. destruct Hthrows as [e He].
    assert (He' : outcome (mergePdfs (Available lib) (Some (map file (selectedFiles st))))
                  = inl e) by (now rewrite Hfiles).
    rewrite (handleMergePdfs_failure _ st e Hlen He'). cbn [mergedPdfUrl error isMerging].
    repeat split.
    + intros Hfl. rewrite (Hfail Hfl) in He. now inversion He.
    + intros msg Hmsg. rewrite (Hread msg Hmsg) in He. now inversion He.
Qed.

(** The scenario of the design note, [a.pdf] and a corrupted [bad.pdf], and
    the list with the unreadable [gone.pdf] in front. *)
Lemma merge_failure_names_file_witness :
  let gone :=
    {| name := "gone.pdf"; type := "application/pdf";
       content := inl "The requested file could not be read" |} in
  let st := handleFileChange Toy.clock (Some [Toy.a_pdf; Toy.bad_pdf]) initialState in
  let st' := snd (handleMergePdfs (Available Toy.lib) st) in
  let message :=
    "Error al procesar bad.pdf. Podría estar corrupto o protegido por contraseña sin permisos de copia." in
  outcome (mergePdfs (Available Toy.lib) (Some [Toy.a_pdf; Toy.bad_pdf]))
  = inl (Error message) /\
  mergedPdfUrl st' = None /\
  error st' = Some message /\
  isMerging st' = false /\
  outcome (mergePdfs (Available Toy.lib) (Some [gone; Toy.bad_pdf]))
  = inl (DOMException "The requested file could not be read").
Proof.
  cbn zeta.
  destruct (merge_failure_names_file Toy.lib
              (handleFileChange Toy.clock (Some [Toy.a_pdf; Toy.bad_pdf]) initialState)
              [Toy.a_pdf; Toy.bad_pdf] Toy.bad_pdf eq_refl
              (or_intror (or_introl eq_refl)) eq_refl)
    as (f & Hfind & _ & Hfail & _ & _ & Hstate).
  vm_compute in Hfind. injection Hfind as <-.
  destruct Hstate as (Hurl & _ & Hmerging & Herror & _); [simpl; lia |].
  split; [now apply Hfail |]. split; [exact Hurl |].
  split; [now apply Herror |]. split; [exact Hmerging |].
  reflexivity.
Defined.

(** ** C4 *)

(** C4: with fewer than two selected files [handleMergePdfs] causes no event
    at all (no call into the PDF library, no file read), whatever the state
    of the [PDFLib] global; afterwards the error cell holds the validation
    message and every other cell is as it was. *)
Theorem handleMergePdfs_fewer_than_two {Page} (PDFLib : PDFLibGlobal Page)
    (st : AppState) :
  length (selectedFiles st) < 2 ->
  fst (handleMergePdfs PDFLib st) = [] /\
  let st' := snd (handleMergePdfs PDFLib st) in
  error st' = Some "Por favor, selecciona al menos dos archivos PDF para fusionar." /\
  selectedFiles st' = selectedFiles st /\
  mergedPdfUrl st' = mergedPdfUrl st /\
  isMerging st' = isMerging st /\
  dragOver st' = dragOver st.
Proof.
  intros Hlen. unfold handleMergePdfs.
  destruct (Nat.ltb_spec (length (selectedFiles st)) 2) as [_ | Hge]; [| lia].
  now repeat split.
Qed.

Lemma handleMergePdfs_fewer_than_two_witness :
  let st := handleFileChange Toy.clock (Some [Toy.a_pdf]) initialState in
  length (selectedFiles st) < 2 /\
  fst (handleMergePdfs (Available Toy.lib) st) = [] /\
  error (snd (handleMergePdfs (Available Toy.lib) st))
  = Some "Por favor, selecciona al menos dos archivos PDF para fusionar.".
Proof.
  cbn zeta. split; [simpl; lia |].
  destruct (handleMergePdfs_fewer_than_two (Available Toy.lib)
              (handleFileChange Toy.clock (Some [Toy.a_pdf]) initialState))
    as (Hlog & Herror & _); [simpl; lia |].
  now split.
Defined.

(** ** C5 *)

(** C5, at a concrete input. Two files named [a.pdf] with different bytes
    arrive in one batch on an empty store: both are stored, because each is
    looked up in [prevFiles], the store as it was before the batch, and not
    in [updatedFiles]. The same pair in two batches leaves one entry, the
    first. *)
Theorem same_name_in_one_batch_stored_twice :
  let a1 := Toy.pdf "a.pdf" [Byte.x01; Byte.x0a] in
  let a2 := Toy.pdf "a.pdf" [Byte.x01; Byte.x0b; Byte.x0c] in
  let oneBatch := handleFileChange Toy.clock (Some [a1; a2]) initialState in
  let dropped := handleDrop Toy.clock (Some [a1; a2]) initialState in
  let twoBatches :=
    handleFileChange Toy.clock (Some [a2])
      (handleFileChange Toy.clock (Some [a1]) initialState) in
  map pf_name (selectedFiles oneBatch) = ["a.pdf"; "a.pdf"] /\
  map file (selectedFiles oneBatch) = [a1; a2] /\
  map pf_name (selectedFiles dropped) = ["a.pdf"; "a.pdf"] /\
  ~ NoDup (map pf_name (selectedFiles oneBatch)) /\
  map file (selectedFiles twoBatches) = [a1].
Proof.
  cbn zeta. repeat (split; [reflexivity |]). split; [| reflexivity].
  intros Hnd. vm_compute in Hnd. inversion Hnd as [| x l Hnotin _]; subst.
  apply Hnotin. now left.
Qed.

(** ** C6 *)

(** C6: when a batch holds a file whose declared type is not
    [application/pdf], both ingestion handlers leave the one warning in the
    error cell, every entry stored before stays in place, and the store
    gains, behind them, exactly one entry per file of the batch that is
    declared as PDF and whose name was not stored yet; the other files of the
    batch contribute nothing, so the store is what the batch without them
    would have given, and a batch without any PDF-typed file leaves the store
    as it was. *)
Theorem non_pdf_entries_ignored_with_warning (now : nat -> N)
    (batch : list File) (st : AppState) :
  existsb (fun f => negb (isPdf f)) batch = true ->
  let viaPicker := handleFileChange now (Some batch) st in
  let viaDrop := handleDrop now (Some batch) st in
  error viaPicker = Some "Algunos archivos no eran PDF y fueron ignorados." /\
  error viaDrop = Some "Algunos archivos no eran PDF y fueron ignorados." /\
  (exists gained,
     selectedFiles viaPicker = (selectedFiles st ++ gained)%list /\
     selectedFiles viaDrop = (selectedFiles st ++ gained)%list /\
     map file gained
     = filter (fun f => isPdf f && negb (nameStored (selectedFiles st) f)) batch /\
     Forall (fun pf => isPdf (file pf) = true /\ In (file pf) batch) gained) /\
  selectedFiles viaPicker
  = selectedFiles (handleFileChange now (Some (filter isPdf batch)) st) /\
  selectedFiles viaDrop
  = selectedFiles (handleDrop now (Some (filter isPdf batch)) st) /\
  (forallb (fun f => negb (isPdf f)) batch = true ->
   selectedFiles viaPicker = selectedFiles st /\
   selectedFiles viaDrop = selectedFiles st).
Proof.
  intros Hnon viaPicker viaDrop. subst viaPicker viaDrop.
  assert (Hlen : (length (filter isPdf batch) =? length batch)%nat = false).
  { apply Nat.eqb_neq. pose proof (filter_isPdf_shorter batch Hnon). lia. }
  rewrite handleFileChange_error, handleDrop_error, Hlen.
  rewrite !handleFileChange_selectedFiles, !handleDrop_selectedFiles.
  assert (Hsame : toProcessedFiles now (filter isPdf batch) = toProcessedFiles now batch)
    by (unfold toProcessedFiles; now rewrite filter_isPdf_idem).
  rewrite Hsame, appendNew_closed_form.
  set (gained := filter (isNewName (selectedFiles st)) (toProcessedFiles now batch)).
  assert (Hfiles : map file gained
                   = filter (fun f => isPdf f && negb (nameStored (selectedFiles st) f)) batch)
    by apply files_of_new_entries.
  split; [reflexivity |]. split; [reflexivity |]. split; [| split; [| split]].
  - exists gained. repeat split; [exact Hfiles |].
    apply Forall_forall. intros pf Hpf.
    assert (Hin : In (file pf) (map file gained)) by (now apply in_map).
    rewrite Hfiles in Hin. apply filter_In in Hin as [Hin Hp].
    apply andb_prop in Hp as [Hpdf _]. now split.
  - reflexivity.
  - reflexivity.
  - intros Hall. apply (f_equal (@length _)) in Hfiles.
    assert (Hnil : gained = []).
    { apply length_zero_iff_nil. rewrite <- (length_map file), Hfiles.
      apply length_zero_iff_nil. apply filter_none. intros f Hf.
      rewrite forallb_forall in Hall. specialize (Hall f Hf).
      now destruct (isPdf f). }
    rewrite Hnil, app_nil_r. now split.
Qed.

Lemma non_pdf_entries_ignored_with_warning_witness :
  let st := handleFileChange Toy.clock (Some [Toy.a_pdf]) initialState in
  let batch := [Toy.notes_txt; Toy.b_pdf] in
  let st' := handleDrop Toy.clock (Some batch) st in
  existsb (fun f => negb (isPdf f)) batch = true /\
  error st' = Some "Algunos archivos no eran PDF y fueron ignorados." /\
  map file (selectedFiles st') = [Toy.a_pdf; Toy.b_pdf].
Proof.
  cbn zeta. split; [reflexivity |].
  destruct (non_pdf_entries_ignored_with_warning Toy.clock
              [Toy.notes_txt; Toy.b_pdf]
              (handleFileChange Toy.clock (Some [Toy.a_pdf]) initialState)
              eq_refl)
    as (_ & Herror & (gained & _ & Hdrop & Hfiles & _) & _).
  split; [exact Herror |].
  rewrite Hdrop, map_app, Hfiles. reflexivity.
Defined.

(** ** C7 *)

(** C7: whatever the state, [handleClearAll] leaves an empty store, no merged
    URL (so nothing to download), no error message and the in-progress flag
    at false. *)
Theorem handleClearAll_resets (st : AppState) (now : N) :
  let st' := handleClearAll st in
  selectedFiles st' = [] /\
  mergedPdfUrl st' = None /\
  handleDownloadMergedPdf now st' = None /\
  error st' = None /\
  isMerging st' = false.
Proof. now repeat split. Qed.

(** ** C8 *)

Lemma decimal_decodes (n : N) :
  option_map N.of_uint (NilEmpty.uint_of_string (decimal n)) = Some n.
Proof.
  unfold decimal. rewrite NilEmpty.usu. cbn [option_map].
  now rewrite DecimalN.Unsigned.of_to.
Qed.

Lemma decimal_injective (n m : N) : decimal n = decimal m -> n = m.
Proof.
  intros H. pose proof (decimal_decodes n) as Hn. rewrite H, decimal_decodes in Hn.
  congruence.
Qed.

(** C8 as stated fails: after a successful merge the download is offered
    under a name that starts with [documento_fusionado_], so it matches
    [merged_document_<timestamp>.pdf] for no timestamp. *)
Lemma download_name_is_not_merged_document :
  let st0 := handleFileChange Toy.clock (Some [Toy.a_pdf; Toy.b_pdf]) initialState in
  let st1 := snd (handleMergePdfs (Available Toy.lib) st0) in
  exists d,
    handleDownloadMergedPdf 1700000000500 st1 = Some d /\
    download d = "documento_fusionado_1700000000500.pdf" /\
    forall timestamp, download d <> "merged_document_" ++ timestamp ++ ".pdf".
Proof.
  cbn zeta. eexists. split; [vm_compute; reflexivity |].
  split; [reflexivity |]. intros timestamp H. cbn in H. discriminate.
Qed.

(** C8, amended: after a successful merge the download action offers the
    merged buffer under the name [documento_fusionado_<timestamp>.pdf], where
    [<timestamp>] is [Date.now()] at the time of the download action, in
    decimal: read back as a number it is that time, so later downloads carry
    larger timestamps. *)
Theorem download_offers_timestamped_name {Page} (PDFLib : PDFLibGlobal Page)
    (st : AppState) (bytes : Uint8Array) (now : N) :
  2 <= length (selectedFiles st) ->
  outcome (mergePdfs PDFLib (Some (map file (selectedFiles st)))) = inr bytes ->
  let st' := snd (handleMergePdfs PDFLib st) in
  handleDownloadMergedPdf now st'
  = Some {| href := createObjectURL
                      {| blobParts := bytes; blobType := "application/pdf" |};
            download := "documento_fusionado_" ++ decimal now ++ ".pdf" |} /\
  option_map N.of_uint (NilEmpty.uint_of_string (decimal now)) = Some now /\
  (forall later, (now < later)%N ->
     exists t t',
       option_map N.of_uint (NilEmpty.uint_of_string (decimal now)) = Some t /\
       option_map N.of_uint (NilEmpty.uint_of_string (decimal later)) = Some t' /\
       (t < t')%N).
Proof.
  intros Hlen Hout st'. subst st'.
  rewrite (handleMergePdfs_success PDFLib st bytes Hlen Hout).
  split; [reflexivity |]. split; [apply decimal_decodes |].
  intros later Hlt. exists now, later. now rewrite !decimal_decodes.
Qed.

Lemma download_offers_timestamped_name_witness :
  let st := handleFileChange Toy.clock (Some [Toy.a_pdf; Toy.b_pdf]) initialState in
  let st' := snd (handleMergePdfs (Available Toy.lib) st) in
  handleDownloadMergedPdf 1700000000500 st'
  = Some {| href := createObjectURL
                      {| blobParts := [Byte.x01; Byte.x0a; Byte.x0b; Byte.x14; Byte.x15; Byte.x16];
                         blobType := "application/pdf" |};
            download := "documento_fusionado_" ++ decimal 1700000000500 ++ ".pdf" |}.
Proof.
  refine (proj1 (download_offers_timestamped_name (Available Toy.lib)
                   (handleFileChange Toy.clock (Some [Toy.a_pdf; Toy.b_pdf]) initialState)
                   [Byte.x01; Byte.x0a; Byte.x0b; Byte.x14; Byte.x15; Byte.x16]
                   1700000000500 _ eq_refl)).
  simpl; lia.
Defined.

(** ** C9 *)

(** C9: with the PDF library loaded and a non-empty list, entries whose
    declared type is not [application/pdf] are skipped inside the merge: the
    merge returns or throws exactly what it would for the list without them,
    a skipped entry only leaves a console warning and [mergedPdf] untouched,
    and a list of such entries alone fails with the no-pages error, which
    names no file. *)
Theorem mergePdfs_skips_non_pdf_entries {Page} (lib : PDFLibrary Page)
    (files : list File) :
  files <> [] ->
  outcome (mergePdfs (Available lib) (Some files))
  = outcome (mergeBody lib (filter isPdf files)) /\
  (forall f rest mergedPdf,
     isPdf f = false ->
     forOfFiles lib (f :: rest) mergedPdf
     = (ConsoleWarn ("Omitiendo archivo no PDF: " ++ name f)
          :: trace (forOfFiles lib rest mergedPdf),
        outcome (forOfFiles lib rest mergedPdf))) /\
  (forallb (fun f => negb (isPdf f)) files = true ->
   outcome (mergePdfs (Available lib) (Some files))
   = inl (Error "No se fusionaron páginas con éxito. Por favor, revisa tus archivos PDF.")).
Proof.
  intros Hne. rewrite (mergePdfs_nonempty lib files Hne).
  assert (Hfilter : outcome (mergeBody lib files)
                    = outcome (mergeBody lib (filter isPdf files))).
  { rewrite !mergeBody_outcome. now rewrite (forOfFiles_filter lib files). }
  split; [exact Hfilter |]. split; [apply forOfFiles_skip |].
  intros Hall. rewrite Hfilter.
  replace (filter isPdf files) with (@nil File); [reflexivity |].
  clear Hne Hfilter. induction files as [| f rest IH]; [reflexivity |].
  cbn [forallb filter] in *. apply andb_prop in Hall as [Hf Hrest].
  destruct (isPdf f); [discriminate | now apply IH].
Qed.

Lemma mergePdfs_skips_non_pdf_entries_witness :
  outcome (mergePdfs (Available Toy.lib) (Some [Toy.notes_txt; Toy.a_pdf]))
  = outcome (mergeBody Toy.lib [Toy.a_pdf]) /\
  outcome (mergePdfs (Available Toy.lib) (Some [Toy.notes_txt]))
  = inl (Error "No se fusionaron páginas con éxito. Por favor, revisa tus archivos PDF.").
Proof.
  split.
  - refine (proj1 (mergePdfs_skips_non_pdf_entries Toy.lib
                     [Toy.notes_txt; Toy.a_pdf] _)). discriminate.
  - refine (proj2 (proj2 (mergePdfs_skips_non_pdf_entries Toy.lib
                            [Toy.notes_txt] _)) eq_refl). discriminate.
Defined.

(** ** C10 *)

(** C10 as stated fails: a single file that is declared as PDF, parses and
    copies without error but holds no page is not merged; the service
    rejects it with the no-pages error. *)
Lemma single_empty_pdf_not_merged :
  let f := Toy.empty_pdf "e.pdf" in
  validPdf Toy.lib f = true /\
  outcome (mergePdfs (Available Toy.lib) (Some [f])) = inl (Error noPagesMessage) /\
  ~ exists buf, outcome (mergePdfs (Available Toy.lib) (Some [f])) = inr buf.
Proof.
  cbn zeta. repeat (split; [reflexivity |]).
  intros [buf H]. vm_compute in H. discriminate.
Qed.

(** C10, amended: with the PDF library loaded, [mergePdfs] throws its
    no-files error exactly when the list is absent or empty; a list of one
    valid PDF file is merged to that file's pages when the file holds at
    least one page, and is rejected with the no-pages error when it holds
    none; the two-file minimum is the caller's: [handleMergePdfs] answers a
    store of one file with its validation message and starts no merge. *)
Theorem mergePdfs_no_files_iff_empty {Page} (lib : PDFLibrary Page) :
  (forall files,
     outcome (mergePdfs (Available lib) files)
     = inl (Error "No se proporcionaron archivos para fusionar.")
     <-> files = None \/ files = Some []) /\
  (forall f,
     validPdf lib f = true ->
     pageCount lib f <> 0 ->
     outcome (mergePdfs (Available lib) (Some [f]))
     = inr (serialize lib {| docPages := pagesOrNone lib f; copyFault := None |})) /\
  (forall f,
     validPdf lib f = true ->
     pageCount lib f = 0 ->
     outcome (mergePdfs (Available lib) (Some [f]))
     = inl (Error "No se fusionaron páginas con éxito. Por favor, revisa tus archivos PDF.")) /\
  (forall st,
     length (selectedFiles st) = 1 ->
     fst (handleMergePdfs (Available lib) st) = [] /\
     error (snd (handleMergePdfs (Available lib) st))
     = Some "Por favor, selecciona al menos dos archivos PDF para fusionar." /\
     mergedPdfUrl (snd (handleMergePdfs (Available lib) st)) = mergedPdfUrl st).
Proof.
  assert (Hpages : forall f, validPdf lib f = true ->
            mergedPages lib [f] = pagesOrNone lib f).
  { intros f Hvalid. unfold mergedPages. cbn [filter].
    rewrite (validPdf_isPdf lib f Hvalid). cbn [map concat]. apply app_nil_r. }
  assert (Hpass : forall f, validPdf lib f = true ->
            forallb (passes lib) [f] = true).
  { intros f Hvalid. cbn [forallb]. now rewrite (validPdf_passes lib f Hvalid). }
  split; [| split; [| split]].
  - intros files. split.
    + destruct files as [[| f rest] |]; [now right | | now left].
      intros H. exfalso.
      rewrite mergePdfs_nonempty, mergeBody_outcome in H by discriminate.
      destruct (outcome (forOfFiles lib (f :: rest) emptyDocument)) as [e | d] eqn:Hloop.
      * apply forOfFiles_throws in Hloop as [[msg ->] | (g & _ & ->)];
          [discriminate |].
        unfold processErrorMessage in H. cbn in H. discriminate.
      * destruct (length (docPages d) =? 0)%nat; discriminate.
    + intros [-> | ->]; reflexivity.
  - intros f Hvalid Hcount.
    rewrite <- (Hpages f Hvalid). apply mergePdfs_passing; [now apply Hpass |].
    rewrite (Hpages f Hvalid). unfold pagesOrNone, pageCount in *.
    destruct (pagesOf lib f) as [[| p ps] |]; simpl in *; congruence.
  - intros f Hvalid Hcount.
    apply mergePdfs_passing_no_pages; [discriminate | now apply Hpass |].
    rewrite (Hpages f Hvalid). unfold pagesOrNone, pageCount in *.
    destruct (pagesOf lib f) as [ps |]; [| reflexivity].
    now apply length_zero_iff_nil.
  - intros st Hlen. unfold handleMergePdfs. rewrite Hlen. now repeat split.
Qed.

Lemma mergePdfs_no_files_iff_empty_witness :
  outcome (mergePdfs (Available Toy.lib) (Some [])) = inl (Error noFilesMessage) /\
  outcome (mergePdfs (Available Toy.lib) (Some [Toy.c_pdf]))
  = inr [Byte.x01; Byte.x1e] /\
  outcome (mergePdfs (Available Toy.lib) (Some [Toy.empty_pdf "e.pdf"]))
  = inl (Error noPagesMessage).
Proof.
  destruct (mergePdfs_no_files_iff_empty Toy.lib) as (Hiff & Hone & Hnone & _).
  split; [| split].
  - apply (proj2 (Hiff (Some []))). now right.
  - apply (Hone Toy.c_pdf); [reflexivity | discriminate].
  - apply (Hnone (Toy.empty_pdf "e.pdf")); reflexivity.
Defined.

(** * Further properties of the merge service *)

Lemma bind_ret_l {A B} (a : A) (k : A -> M B) : bind (ret a) k = k a.
Proof. unfold bind, ret. now destruct (k a). Qed.

Lemma bind_assoc {A B C} (m : M A) (k : A -> M B) (h : B -> M C) :
  bind (bind m k) h = bind m (fun a => bind (k a) h).
Proof.
  destruct m as [t [e | a]]; [reflexivity |]. cbn [bind].
  destruct (k a) as [t' [e | b]]; [reflexivity |]. cbn [bind].
  destruct (h b) as [t'' r]. now rewrite app_assoc.
Qed.

Lemma bind_ext {A B} (m : M A) (k k' : A -> M B) :
  (forall a, k a = k' a) -> bind m k = bind m k'.
Proof. intros H. destruct m as [t [e | a]]; [reflexivity |]. cbn [bind]. now rewrite H. Qed.

Lemma bind_throws {A B} (m : M A) (k : A -> M B) (e : Thrown) :
  outcome m = inl e -> bind m k = (trace m, inl e).
Proof. destruct m as [t [e' | a]]; cbn; [intros [= ->]; reflexivity | discriminate]. Qed.

Lemma bind_returns {A B} (m : M A) (k : A -> M B) (a : A) :
  outcome m = inr a ->
  bind m k = ((trace m ++ trace (k a))%list, outcome (k a)).
Proof.
  destruct m as [t [e | a']]; cbn; [discriminate | intros [= ->]].
  now destruct (k a).
Qed.

Section MergeRuns.

Context {Page : Type}.
Variable lib : PDFLibrary Page.

Lemma forOfFiles_concat (files more : list File) :
  forall mergedPdf,
    forOfFiles lib (files ++ more) mergedPdf
    = (mergedPdf' <- forOfFiles lib files mergedPdf;;
       forOfFiles lib more mergedPdf').
Proof.
  induction files as [| f rest IH]; intros mergedPdf.
  - rewrite app_nil_l. cbn [forOfFiles]. now rewrite bind_ret_l.
  - rewrite <- app_comm_cons. cbn [forOfFiles]. destruct (negb (isPdf f)).
    + rewrite bind_assoc. apply bind_ext. intros _. apply IH.
    + rewrite bind_assoc. apply bind_ext. intros buf.
      rewrite bind_assoc. apply bind_ext. intros mergedPdf'. apply IH.
Qed.

Lemma forEachAddPage_run (copiedPages : list Page) :
  forall mergedPdf,
    forEachAddPage mergedPdf copiedPages
    = (repeat (PdfLib CallAddPage) (length copiedPages),
       inr (withPages mergedPdf copiedPages)).
Proof.
  induction copiedPages as [| page rest IH]; intros mergedPdf.
  - unfold withPages. cbn. rewrite app_nil_r. now destruct mergedPdf.
  - cbn [forEachAddPage]. unfold addPage. rewrite bind_assoc.
    cbn [emit bind]. rewrite bind_ret_l, IH. cbn [app length repeat].
    unfold withPages. cbn [docPages copyFault]. now rewrite <- app_assoc.
Qed.

(** One file the loop gets past: its events, and [mergedPdf] afterwards. *)
Lemma forOfFiles_one_passing (f : File) (mergedPdf : PDFDocument Page) :
  passes lib f = true ->
  forOfFiles lib [f] mergedPdf
  = (fileEvents lib f,
     inr (withPages mergedPdf (if isPdf f then pagesOrNone lib f else []))).
Proof.
  intros Hf. unfold fileEvents.
  destruct (passes_cases lib f Hf) as [Hno | (Hpdf & buf & ps & Hbuf & Hps)].
  - rewrite (forOfFiles_skip lib f [] mergedPdf Hno), Hno. cbn.
    unfold withPages. rewrite app_nil_r. now destruct mergedPdf.
  - cbn [forOfFiles]. rewrite Hpdf. cbn [negb].
    unfold pageCount, pagesOrNone. rewrite Hps.
    unfold pagesOf in Hps. rewrite Hbuf in Hps.
    unfold arrayBuffer. rewrite Hbuf. cbn [emit ret bind app].
    unfold loadAndCopy, load.
    destruct (parse lib buf) as [e | doc]; [discriminate |].
    cbn [emit ret bind app]. unfold copyPages.
    destruct (copyFault doc); [discriminate |]. injection Hps as <-.
    unfold getPageIndices. cbn [emit ret bind app].
    rewrite pagesAt_all. cbn [emit ret bind app].
    rewrite forEachAddPage_run. cbn [try_catch ret bind].
    now rewrite !app_nil_r.
Qed.

(** The loop over files it gets past: the events file by file. *)
Lemma forOfFiles_passing_run (files : list File) :
  forallb (passes lib) files = true ->
  forall mergedPdf,
    forOfFiles lib files mergedPdf
    = (concat (map (fileEvents lib) files),
       inr (withPages mergedPdf (mergedPages lib files))).
Proof.
  induction files as [| f rest IH]; intros Hall mergedPdf.
  - cbn. unfold withPages. rewrite app_nil_r. now destruct mergedPdf.
  - cbn [forallb] in Hall. apply andb_prop in Hall as [Hf Hrest].
    change (f :: rest) with ([f] ++ rest)%list at 1.
    rewrite forOfFiles_concat, (forOfFiles_one_passing f mergedPdf Hf).
    cbn [bind]. rewrite (IH Hrest). cbn [map concat]. f_equal. f_equal.
    rewrite withPages_app. f_equal. unfold mergedPages. cbn [filter].
    destruct (isPdf f); reflexivity.
Qed.

End MergeRuns.

(** X1: [mergePdfs] (library loaded) returns a buffer exactly when every file
    of the list is either skipped for its type or loaded and copied whole,
    and at least one page was copied; the buffer is then the serialisation of
    the pages of the PDF-typed files, in list order. No partial merge is ever
    returned. *)
Theorem mergePdfs_returns_iff_complete {Page} (lib : PDFLibrary Page)
    (files : list File) (buf : Uint8Array) :
  outcome (mergePdfs (Available lib) (Some files)) = inr buf
  <-> forallb (passes lib) files = true /\
      mergedPages lib files <> [] /\
      buf = serialize lib {| docPages := mergedPages lib files; copyFault := None |}.
Proof.
  split.
  - intros H. destruct (mergePdfs_returns lib files buf H) as [Hall Hbuf].
    repeat split; [exact Hall | | exact Hbuf].
    intros Hnil. destruct files as [| f rest]; [discriminate |].
    rewrite mergePdfs_nonempty, mergeBody_outcome in H by discriminate.
    rewrite (forOfFiles_passing lib _ Hall), Hnil in H. discriminate.
  - intros (Hall & Hpages & ->). now apply mergePdfs_passing.
Qed.

Lemma mergePdfs_returns_iff_complete_witness :
  forallb (passes Toy.lib) [Toy.a_pdf; Toy.notes_txt; Toy.c_pdf] = true /\
  mergedPages Toy.lib [Toy.a_pdf; Toy.notes_txt; Toy.c_pdf]
  = [Byte.x0a; Byte.x0b; Byte.x1e] /\
  ~ (exists buf, outcome (mergePdfs (Available Toy.lib)
                            (Some [Toy.a_pdf; Toy.locked_pdf])) = inr buf).
Proof.
  split; [| split].
  - apply (proj1 (mergePdfs_returns_iff_complete Toy.lib
                    [Toy.a_pdf; Toy.notes_txt; Toy.c_pdf]
                    [Byte.x01; Byte.x0a; Byte.x0b; Byte.x1e]) eq_refl).
  - reflexivity.
  - intros [buf H].
    apply (proj1 (mergePdfs_returns_iff_complete Toy.lib _ buf)) in H.
    destruct H as [H _]. discriminate.
Defined.

(** X2: once [mergePdfs] fails with anything but its no-files or no-pages
    error (a rejected read, or the error naming a file), the files further
    down the list play no part: with more files appended it logs the same
    events and throws the same error, so none of them is read or loaded. *)
Theorem mergePdfs_stops_at_failure {Page} (lib : PDFLibrary Page)
    (files more : list File) (e : Thrown) :
  outcome (mergePdfs (Available lib) (Some files)) = inl e ->
  e <> Error noFilesMessage ->
  e <> Error noPagesMessage ->
  mergePdfs (Available lib) (Some (files ++ more)%list)
  = mergePdfs (Available lib) (Some files).
Proof.
  intros H Hfiles Hpages.
  destruct files as [| f rest]; [cbn in H; congruence |].
  assert (Hloop : outcome (forOfFiles lib (f :: rest) emptyDocument) = inl e).
  { rewrite mergePdfs_nonempty, mergeBody_outcome in H by discriminate.
    destruct (outcome (forOfFiles lib (f :: rest) emptyDocument)) as [e' | d];
      [congruence |].
    destruct (length (docPages d) =? 0)%nat; [congruence | discriminate]. }
  rewrite !mergePdfs_nonempty by discriminate.
  unfold mergeBody, create. rewrite !bind_assoc. cbn [emit bind].
  rewrite !bind_ret_l. fold (@emptyDocument Page).
  rewrite forOfFiles_concat, bind_assoc.
  now rewrite !(bind_throws _ _ e Hloop).
Qed.

Lemma mergePdfs_stops_at_failure_witness :
  mergePdfs (Available Toy.lib) (Some [Toy.a_pdf; Toy.bad_pdf; Toy.b_pdf; Toy.c_pdf])
  = mergePdfs (Available Toy.lib) (Some [Toy.a_pdf; Toy.bad_pdf]).
Proof.
  apply (mergePdfs_stops_at_failure Toy.lib [Toy.a_pdf; Toy.bad_pdf]
           [Toy.b_pdf; Toy.c_pdf]
           (Error (processErrorMessage "bad.pdf")) eq_refl);
    discriminate.
Defined.

(** X3: the event log of a successful merge. The library creates one
    document; then, file by file in list order, a PDF-typed file is read
    once, loaded once, asked for its page indices, copied, and one
    [addPage] is made per page, while any other file leaves only a console
    warning; the merge ends with one page count and one save. *)
Theorem successful_merge_event_log {Page} (lib : PDFLibrary Page)
    (files : list File) :
  forallb (passes lib) files = true ->
  mergedPages lib files <> [] ->
  trace (mergePdfs (Available lib) (Some files))
  = (PdfLib CallCreate :: concat (map (fileEvents lib) files)
       ++ [PdfLib CallGetPageCount; PdfLib CallSave])%list.
Proof.
  intros Hall Hpages.
  assert (Hne : files <> []) by (intros ->; now apply Hpages).
  rewrite (mergePdfs_nonempty lib files Hne).
  unfold mergeBody, create. rewrite !bind_assoc. cbn [emit bind].
  rewrite bind_ret_l, (forOfFiles_passing_run lib files Hall). cbn [bind].
  unfold getPageCount. rewrite bind_assoc. cbn [emit bind]. rewrite bind_ret_l.
  unfold withPages. cbn [docPages].
  destruct (mergedPages lib files) as [| p ps]; [congruence |].
  cbn [length Nat.eqb save emit ret bind trace fst]. now rewrite !app_nil_r.
Qed.

Lemma successful_merge_event_log_witness :
  trace (mergePdfs (Available Toy.lib) (Some [Toy.notes_txt; Toy.c_pdf]))
  = [PdfLib CallCreate; ConsoleWarn "Omitiendo archivo no PDF: notes.txt";
     ReadFile "c.pdf"; PdfLib CallLoad; PdfLib CallGetPageIndices;
     PdfLib CallCopyPages; PdfLib CallAddPage;
     PdfLib CallGetPageCount; PdfLib CallSave].
Proof.
  apply (successful_merge_event_log Toy.lib [Toy.notes_txt; Toy.c_pdf]);
    [reflexivity | discriminate].
Defined.

(** X4: a read that [file.arrayBuffer()] rejects is not turned into the error
    naming the file, because the read happens before the [try] block: the
    [DOMException] leaves [mergePdfs] as it is, the library is never asked to
    load that file, nothing after it runs, and [handleMergePdfs] shows the
    exception's own message. *)
Theorem rejected_read_is_not_wrapped {Page} (lib : PDFLibrary Page)
    (st : AppState) (pre post : list File) (f : File) (msg : string) :
  map file (selectedFiles st) = (pre ++ f :: post)%list ->
  2 <= length (selectedFiles st) ->
  forallb (passes lib) pre = true ->
  isPdf f = true ->
  content f = inl msg ->
  mergePdfs (Available lib) (Some (pre ++ f :: post)%list)
  = ((PdfLib CallCreate :: concat (map (fileEvents lib) pre)
        ++ [ReadFile (name f)])%list,
     inl (DOMException msg)) /\
  error (snd (handleMergePdfs (Available lib) st)) = Some msg /\
  mergedPdfUrl (snd (handleMergePdfs (Available lib) st)) = None.
Proof.
  intros Hfiles Hlen Hpre Hpdf Hcontent.
  assert (Hrun : mergePdfs (Available lib) (Some (pre ++ f :: post)%list)
                 = ((PdfLib CallCreate :: concat (map (fileEvents lib) pre)
                       ++ [ReadFile (name f)])%list,
                    inl (DOMException msg))).
  { rewrite mergePdfs_nonempty by (now destruct pre).
    unfold mergeBody, create. rewrite !bind_assoc. cbn [emit bind].
    rewrite bind_ret_l, forOfFiles_concat, (forOfFiles_passing_run lib pre Hpre).
    cbn [bind forOfFiles]. rewrite Hpdf. cbn [negb].
    unfold arrayBuffer. rewrite Hcontent. cbn [emit throw bind].
    now rewrite !app_nil_r. }
  split; [exact Hrun |].
  assert (Hout : outcome (mergePdfs (Available lib)
                            (Some (map file (selectedFiles st))))
                 = inl (DOMException msg)) by (now rewrite Hfiles, Hrun).
  now rewrite (handleMergePdfs_failure _ st _ Hlen Hout).
Qed.

Lemma rejected_read_is_not_wrapped_witness :
  let gone :=
    {| name := "gone.pdf"; type := "application/pdf";
       content := inl "The requested file could not be read" |} in
  let st := handleFileChange Toy.clock (Some [Toy.c_pdf; gone; Toy.bad_pdf]) initialState in
  mergePdfs (Available Toy.lib) (Some [Toy.c_pdf; gone; Toy.bad_pdf])
  = ([PdfLib CallCreate; ReadFile "c.pdf"; PdfLib CallLoad;
      PdfLib CallGetPageIndices; PdfLib CallCopyPages; PdfLib CallAddPage;
      ReadFile "gone.pdf"],
     inl (DOMException "The requested file could not be read")) /\
  error (snd (handleMergePdfs (Available Toy.lib) st))
  = Some "The requested file could not be read" /\
  mergedPdfUrl (snd (handleMergePdfs (Available Toy.lib) st)) = None.
Proof.
  cbn zeta.
  apply (rejected_read_is_not_wrapped Toy.lib
           (handleFileChange Toy.clock
              (Some [Toy.c_pdf;
                     {| name := "gone.pdf"; type := "application/pdf";
                        content := inl "The requested file could not be read" |};
                     Toy.bad_pdf]) initialState)
           [Toy.c_pdf] [Toy.bad_pdf]
           {| name := "gone.pdf"; type := "application/pdf";
              content := inl "The requested file could not be read" |}
           "The requested file could not be read");
    try reflexivity.
  simpl; lia.
Defined.

(** * Further properties of the merge handler *)

Lemma handleMergePdfs_selectedFiles {Page} (PDFLib : PDFLibGlobal Page) st :
  selectedFiles (snd (handleMergePdfs PDFLib st)) = selectedFiles st.
Proof.
  unfold handleMergePdfs. destruct (length (selectedFiles st) <? 2)%nat; [reflexivity |].
  cbn [setIsMerging setError setMergedPdfUrl selectedFiles].
  now destruct (mergePdfs PDFLib (Some (map file (selectedFiles st)))) as [t [e | b]].
Qed.





(** ** What every run of the page keeps true *)

Lemma Forall_mapFrom {A B} (P : B -> Prop) (f : nat -> A -> B) (xs : list A) :
  (forall i x, In x xs -> P (f i x)) ->
  forall i, Forall P (mapFrom i f xs).
Proof.
  induction xs as [| x rest IH]; intros HP i; cbn [mapFrom]; constructor.
  - apply HP. now left.
  - apply IH. intros j y Hy. apply HP. now right.
Qed.

Lemma toProcessedFiles_built (now : nat -> N) (files : list File) :
  Forall builtByIngestion (toProcessedFiles now files).
Proof.
  apply Forall_mapFrom. intros i f Hin. apply filter_In in Hin as [_ Hpdf].
  unfold builtByIngestion. cbn [file pf_name id].
  repeat split; [exact Hpdf |]. now exists (now i).
Qed.

Lemma appendNew_built (newFiles prevFiles : list ProcessedFile) :
  Forall builtByIngestion prevFiles ->
  Forall builtByIngestion newFiles ->
  Forall builtByIngestion (appendNew newFiles prevFiles).
Proof.
  intros Hprev Hnew. rewrite appendNew_closed_form. apply Forall_app.
  split; [exact Hprev |]. rewrite Forall_forall in *.
  intros pf Hin. apply filter_In in Hin as [Hin _]. now apply Hnew.
Qed.

Lemma dispatch_built {Page} (a : Action Page) (st : AppState) :
  Forall builtByIngestion (selectedFiles st) ->
  Forall builtByIngestion (selectedFiles (dispatch a st)).
Proof.
  intros Hst. destruct a as [now files | now files | | | fileId | PDFLib |];
    cbn [dispatch].
  - destruct files as [files |]; [| exact Hst].
    rewrite handleFileChange_selectedFiles.
    apply appendNew_built; [exact Hst | apply toProcessedFiles_built].
  - destruct files as [files |]; [| exact Hst].
    rewrite handleDrop_selectedFiles.
    apply appendNew_built; [exact Hst | apply toProcessedFiles_built].
  - exact Hst.
  - exact Hst.
  - rewrite handleRemoveFile_selectedFiles. rewrite Forall_forall in *.
    intros pf Hin. apply filter_In in Hin as [Hin _]. now apply Hst.
  - now rewrite handleMergePdfs_selectedFiles.
  - constructor.
Qed.

Lemma run_built {Page} (actions : list (Action Page)) :
  forall st,
    Forall builtByIngestion (selectedFiles st) ->
    Forall builtByIngestion (selectedFiles (run actions st)).
Proof.
  induction actions as [| a rest IH]; intros st Hst; [exact Hst |].
  cbn [run fold_left]. apply IH. now apply dispatch_built.
Qed.

(** X7: whatever the user does from the initial page, every entry of the
    store wraps a file whose declared type is [application/pdf], carries that
    file's name as its display name, and has an identifier made of the name,
    a dash and a decimal timestamp. *)
Theorem store_holds_only_pdf_entries {Page} (actions : list (Action Page)) :
  Forall builtByIngestion (selectedFiles (run actions initialState)).
Proof. apply run_built. constructor. Qed.

(** ** A merge started from the page never skips a file *)

Lemma noWarn_bind {A B} (m : M A) (k : A -> M B) :
  existsb isConsoleWarn (trace m) = false ->
  (forall a, existsb isConsoleWarn (trace (k a)) = false) ->
  existsb isConsoleWarn (trace (bind m k)) = false.
Proof.
  intros Hm Hk. rewrite trace_bind, existsb_app, Hm.
  destruct (outcome m); [reflexivity | apply Hk].
Qed.

Lemma noWarn_try_catch {A} (body : M A) (handler : Thrown -> M A) :
  existsb isConsoleWarn (trace body) = false ->
  (forall e, existsb isConsoleWarn (trace (handler e)) = false) ->
  existsb isConsoleWarn (trace (try_catch body handler)) = false.
Proof.
  intros Hb Hh. rewrite trace_try_catch, existsb_app, Hb.
  destruct (outcome body); [apply Hh | reflexivity].
Qed.

Section NoSkip.

Context {Page : Type}.
Variable lib : PDFLibrary Page.

Lemma noWarn_forEachAddPage (copiedPages : list Page) (mergedPdf : PDFDocument Page) :
  existsb isConsoleWarn (trace (forEachAddPage mergedPdf copiedPages)) = false.
Proof.
  rewrite forEachAddPage_run. cbn [trace fst].
  induction (length copiedPages) as [| n IH]; [reflexivity | exact IH].
Qed.

Lemma noWarn_loadAndCopy (mergedPdf : PDFDocument Page) (buf : ArrayBuffer) :
  existsb isConsoleWarn (trace (loadAndCopy lib mergedPdf buf)) = false.
Proof.
  unfold loadAndCopy. apply noWarn_bind.
  - unfold load. apply noWarn_bind; [reflexivity |].
    intros _. now destruct (parse lib buf).
  - intros pdfDoc. apply noWarn_bind; [reflexivity |].
    intros indices. apply noWarn_bind.
    + unfold copyPages. apply noWarn_bind; [reflexivity |].
      intros _. destruct (copyFault pdfDoc); [reflexivity |].
      now destruct (pagesAt (docPages pdfDoc) indices).
    + intros copiedPages. apply noWarn_forEachAddPage.
Qed.

Lemma noWarn_forOfFiles (files : list File) :
  forallb isPdf files = true ->
  forall mergedPdf,
    existsb isConsoleWarn (trace (forOfFiles lib files mergedPdf)) = false.
Proof.
  induction files as [| f rest IH]; intros Hall mergedPdf; [reflexivity |].
  cbn [forallb] in Hall. apply andb_prop in Hall as [Hf Hrest].
  cbn [forOfFiles]. rewrite Hf. cbn [negb].
  apply noWarn_bind.
  - unfold arrayBuffer. apply noWarn_bind; [reflexivity |].
    intros _. now destruct (content f).
  - intros buf. apply noWarn_bind; [| intros mergedPdf'; now apply IH].
    apply noWarn_try_catch; [apply noWarn_loadAndCopy |].
    intros e. apply noWarn_bind; [reflexivity | reflexivity].
Qed.

Lemma noWarn_mergeBody (files : list File) :
  forallb isPdf files = true ->
  existsb isConsoleWarn (trace (mergeBody lib files)) = false.
Proof.
  intros Hall. unfold mergeBody. apply noWarn_bind; [reflexivity |].
  intros mergedPdf. apply noWarn_bind; [now apply noWarn_forOfFiles |].
  intros mergedPdf'. apply noWarn_bind; [reflexivity |].
  intros count. now destruct (count =? 0)%nat.
Qed.

End NoSkip.

Lemma noWarn_mergePdfs {Page} (PDFLib : PDFLibGlobal Page) (files : list File) :
  forallb isPdf files = true ->
  existsb isConsoleWarn (trace (mergePdfs PDFLib (Some files))) = false.
Proof.
  intros Hall. destruct PDFLib as [| | lib]; [reflexivity | reflexivity |].
  cbn [mergePdfs]. destruct (length files =? 0)%nat; [reflexivity |].
  now apply noWarn_mergeBody.
Qed.

Lemma built_files_are_pdf (store : list ProcessedFile) :
  Forall builtByIngestion store -> forallb isPdf (map file store) = true.
Proof.
  induction 1 as [| pf rest [Hpdf _] _ IH]; [reflexivity |].
  cbn [map forallb]. now rewrite Hpdf, IH.
Qed.

(** X8: whatever the user did before, a click on the merge button never makes
    [mergePdfs] skip a file: the log of the merge holds no console warning,
    since the store only ever holds PDF-typed files. The type test inside
    [mergePdfs] matters to other callers only. *)
Theorem merge_from_page_never_skips {Page} (actions : list (Action Page))
    (PDFLib : PDFLibGlobal Page) :
  existsb isConsoleWarn
    (fst (handleMergePdfs PDFLib (run actions initialState))) = false.
Proof.
  pose proof (run_built actions initialState (Forall_nil _)) as Hbuilt.
  apply built_files_are_pdf in Hbuilt.
  pose proof (noWarn_mergePdfs PDFLib _ Hbuilt) as Hwarn.
  unfold handleMergePdfs.
  destruct (length (selectedFiles (run actions initialState)) <? 2)%nat;
    [reflexivity |].
  cbn [setIsMerging setError setMergedPdfUrl selectedFiles].
  destruct (mergePdfs PDFLib (Some (map file (selectedFiles (run actions initialState)))))
    as [t [e | b]]; cbn [trace fst] in *; [| exact Hwarn].
  now rewrite existsb_app, Hwarn.
Qed.

(** * Further properties of the selection store *)

(** X9: what an add does to the store, for the file picker and for a drop
    alike: the files already stored stay, in their order, and behind them
    come, in batch order, the files of the batch that are declared as PDF and
    whose name no stored entry had before the batch. *)
Theorem ingestion_appends_new_pdf_files (now : nat -> N) (batch : list File)
    (st : AppState) :
  let added :=
    filter (fun f => isPdf f && negb (nameStored (selectedFiles st) f)) batch in
  map file (selectedFiles (handleFileChange now (Some batch) st))
  = (map file (selectedFiles st) ++ added)%list /\
  map file (selectedFiles (handleDrop now (Some batch) st))
  = (map file (selectedFiles st) ++ added)%list /\
  exists entries,
    selectedFiles (handleFileChange now (Some batch) st)
    = (selectedFiles st ++ entries)%list /\
    selectedFiles (handleDrop now (Some batch) st)
    = (selectedFiles st ++ entries)%list.
Proof.
  cbn zeta. rewrite handleFileChange_selectedFiles, handleDrop_selectedFiles.
  rewrite appendNew_closed_form, map_app, files_of_new_entries.
  repeat split. now eexists.
Qed.

Lemma appendNew_again (new new' prev : list ProcessedFile) :
  map pf_name new' = map pf_name new ->
  appendNew new' (appendNew new prev) = appendNew new prev.
Proof.
  intros Hnames. rewrite (appendNew_closed_form new' (appendNew new prev)).
  replace (filter (isNewName (appendNew new prev)) new') with (@nil ProcessedFile);
    [apply app_nil_r |].
  symmetry. apply filter_none. intros nf' Hin.
  apply isNewName_false_iff.
  assert (Hn : In (pf_name nf') (map pf_name new))
    by (rewrite <- Hnames; now apply in_map).
  apply in_map_iff in Hn as (nf & Heq & Hnf).
  rewrite appendNew_closed_form, map_app, in_app_iff.
  destruct (isNewName prev nf) eqn:Hnew.
  - right. rewrite <- Heq. apply in_map. apply filter_In. now split.
  - left. rewrite <- Heq. now apply isNewName_false_iff.
Qed.

(** X10: adding the same batch a second time, by either route and at any
    later time, changes nothing in the store: every PDF name of the batch is
    already stored. *)
Theorem adding_a_batch_again_changes_nothing (now now' : nat -> N)
    (batch : list File) (st : AppState) :
  selectedFiles (handleFileChange now' (Some batch)
                   (handleFileChange now (Some batch) st))
  = selectedFiles (handleFileChange now (Some batch) st) /\
  selectedFiles (handleDrop now' (Some batch)
                   (handleFileChange now (Some batch) st))
  = selectedFiles (handleFileChange now (Some batch) st) /\
  selectedFiles (handleFileChange now' (Some batch)
                   (handleDrop now (Some batch) st))
  = selectedFiles (handleDrop now (Some batch) st).
Proof.
  rewrite !handleFileChange_selectedFiles, !handleDrop_selectedFiles.
  rewrite !handleFileChange_selectedFiles.
  repeat split; apply appendNew_again; now rewrite !names_of_toProcessedFiles.
Qed.

Lemma NoDup_map_filter {A B} (g : A -> B) (p : A -> bool) (l : list A) :
  NoDup (map g l) -> NoDup (map g (filter p l)).
Proof.
  induction l as [| x rest IH]; [trivial |].
  cbn [map filter]. intros Hnd. inversion Hnd as [| y l' Hnotin Hrest]; subst.
  destruct (p x); [| now apply IH].
  cbn [map]. constructor; [| now apply IH].
  intros Hin. apply Hnotin. apply in_map_iff in Hin as (z & Hz & Hin).
  apply filter_In in Hin as [Hin _]. rewrite <- Hz. now apply in_map.
Qed.

Lemma appendNew_distinct_names (new prev : list ProcessedFile) :
  NoDup (map pf_name prev) ->
  NoDup (map pf_name new) ->
  NoDup (map pf_name (appendNew new prev)).
Proof.
  intros Hprev Hnew. rewrite appendNew_closed_form, map_app.
  apply NoDup_app; [exact Hprev | now apply NoDup_map_filter |].
  intros n Hin Hin'. apply in_map_iff in Hin' as (nf & Heq & Hnf).
  apply filter_In in Hnf as [_ Hfresh]. rewrite <- Heq in Hin.
  apply isNewName_false_iff in Hin. congruence.
Qed.

(** X11: the store keeps its display names distinct through an add, by the
    file picker or by a drop, provided the PDF-typed files of the batch bear
    distinct names among themselves. *)
Theorem ingestion_keeps_names_distinct (now : nat -> N) (batch : list File)
    (st : AppState) :
  NoDup (map pf_name (selectedFiles st)) ->
  NoDup (map name (filter isPdf batch)) ->
  NoDup (map pf_name (selectedFiles (handleFileChange now (Some batch) st))) /\
  NoDup (map pf_name (selectedFiles (handleDrop now (Some batch) st))).
Proof.
  intros Hst Hbatch.
  rewrite handleFileChange_selectedFiles, handleDrop_selectedFiles.
  split; apply appendNew_distinct_names; try exact Hst;
    now rewrite names_of_toProcessedFiles.
Qed.

Lemma ingestion_keeps_names_distinct_witness :
  let st := handleFileChange Toy.clock (Some [Toy.a_pdf; Toy.b_pdf]) initialState in
  let batch := [Toy.b_pdf; Toy.notes_txt; Toy.c_pdf] in
  NoDup (map pf_name (selectedFiles (handleFileChange Toy.clock (Some batch) st))) /\
  NoDup (map pf_name (selectedFiles (handleDrop Toy.clock (Some batch) st))).
Proof.
  cbn zeta.
  apply (ingestion_keeps_names_distinct Toy.clock
           [Toy.b_pdf; Toy.notes_txt; Toy.c_pdf]
           (handleFileChange Toy.clock (Some [Toy.a_pdf; Toy.b_pdf]) initialState)).
  - cbn. repeat constructor; cbn; intuition discriminate.
  - cbn. repeat constructor; cbn; intuition discriminate.
Defined.

Lemma filter_isPdf_all (files : list File) :
  (length (filter isPdf files) =? length files)%nat = forallb isPdf files.
Proof.
  induction files as [| f rest IH]; [reflexivity |].
  cbn [filter forallb length]. destruct (isPdf f); cbn [andb length].
  - exact IH.
  - apply Nat.eqb_neq. pose proof (filter_length_le isPdf rest). lia.
Qed.

(** X12: after an add, by either route, the error cell is empty exactly when
    every file of the batch was declared as PDF; so such a batch (the empty
    batch too) wipes whatever message was shown before, and any other batch
    replaces it by the one warning. *)
Theorem ingestion_error_iff_non_pdf (now : nat -> N) (batch : list File)
    (st : AppState) :
  (error (handleFileChange now (Some batch) st) = None
   <-> forallb isPdf batch = true) /\
  (error (handleDrop now (Some batch) st) = None
   <-> forallb isPdf batch = true) /\
  (forallb isPdf batch = false ->
   error (handleFileChange now (Some batch) st) = Some notPdfWarning /\
   error (handleDrop now (Some batch) st) = Some notPdfWarning).
Proof.
  rewrite handleFileChange_error, handleDrop_error, filter_isPdf_all.
  destruct (forallb isPdf batch); repeat split; intros; congruence.
Qed.

Lemma ingestion_error_iff_non_pdf_witness :
  let st := setError (Some selectTwoMessage) initialState in
  error (handleFileChange Toy.clock (Some [Toy.a_pdf]) st) = None /\
  error (handleDrop Toy.clock (Some [Toy.a_pdf; Toy.notes_txt]) st)
  = Some notPdfWarning.
Proof.
  cbn zeta. split.
  - apply (proj2 (proj1 (ingestion_error_iff_non_pdf Toy.clock [Toy.a_pdf]
                           (setError (Some selectTwoMessage) initialState)))).
    reflexivity.
  - apply (proj2 (proj2 (ingestion_error_iff_non_pdf Toy.clock
                           [Toy.a_pdf; Toy.notes_txt]
                           (setError (Some selectTwoMessage) initialState)))).
    reflexivity.
Defined.

(** ** Removing entries *)

(** X13: removing an identifier the store does not hold leaves the store,
    the error message and the in-progress flag as they were, but it still
    drops the merged URL. *)
Theorem removing_unknown_id (fileId : string) (st : AppState) :
  ~ In fileId (map id (selectedFiles st)) ->
  let st' := handleRemoveFile fileId st in
  selectedFiles st' = selectedFiles st /\
  error st' = error st /\
  isMerging st' = isMerging st /\
  mergedPdfUrl st' = None.
Proof.
  intros Hnot st'. subst st'.
  split; [now apply handleRemoveFile_absent |].
  split; [unfold handleRemoveFile; now destruct (mergedPdfUrl st) |].
  split; [unfold handleRemoveFile; now destruct (mergedPdfUrl st) |].
  apply handleRemoveFile_mergedPdfUrl.
Qed.

Lemma removing_unknown_id_witness :
  let st0 := handleFileChange Toy.clock (Some [Toy.a_pdf; Toy.b_pdf]) initialState in
  let st1 := snd (handleMergePdfs (Available Toy.lib) st0) in
  let st' := handleRemoveFile "z.pdf-0" st1 in
  mergedPdfUrl st1 <> None /\
  selectedFiles st' = selectedFiles st1 /\
  error st' = error st1 /\
  isMerging st' = isMerging st1 /\
  mergedPdfUrl st' = None.
Proof.
  cbn zeta. split; [discriminate |].
  apply (removing_unknown_id "z.pdf-0"
           (snd (handleMergePdfs (Available Toy.lib)
                   (handleFileChange Toy.clock (Some [Toy.a_pdf; Toy.b_pdf])
                      initialState)))).
  cbn. intuition discriminate.
Defined.

(** X14: after a removal no stored entry bears the removed identifier, every
    entry with another identifier is still stored, and removing the same
    identifier once more changes nothing at all. *)
Theorem removing_is_idempotent (fileId : string) (st : AppState) :
  let st' := handleRemoveFile fileId st in
  ~ In fileId (map id (selectedFiles st')) /\
  (forall pf, In pf (selectedFiles st) -> id pf <> fileId ->
     In pf (selectedFiles st')) /\
  handleRemoveFile fileId st' = st'.
Proof.
  cbn zeta. split; [| split].
  - rewrite handleRemoveFile_selectedFiles. intros Hin.
    apply in_map_iff in Hin as (pf & Hid & Hin).
    apply filter_In in Hin as [_ Hneq]. rewrite Hid, String.eqb_refl in Hneq.
    discriminate.
  - intros pf Hin Hneq. rewrite handleRemoveFile_selectedFiles.
    apply filter_In. split; [exact Hin |].
    apply negb_true_iff. now apply String.eqb_neq.
  - assert (Hfilter : forall l : list ProcessedFile,
              filter (fun f => negb (id f =? fileId))
                (filter (fun f => negb (id f =? fileId)) l)
              = filter (fun f => negb (id f =? fileId)) l).
    { intros l. rewrite filter_twice. apply filter_ext.
      intros pf. now destruct (negb (id pf =? fileId)). }
    unfold handleRemoveFile.
    destruct (mergedPdfUrl st) eqn:Hurl;
      cbn [setSelectedFiles setMergedPdfUrl mergedPdfUrl selectedFiles
             isMerging error dragOver];
      unfold setSelectedFiles, setMergedPdfUrl;
      cbn [mergedPdfUrl selectedFiles isMerging error dragOver];
      rewrite ?Hurl, Hfilter; reflexivity.
Qed.

Lemma lacks_append (c : ascii) (s t : string) :
  lacks c (s ++ String c t) = false.
Proof.
  induction s as [| d s IH]; cbn [append lacks].
  - now rewrite Ascii.eqb_refl.
  - rewrite IH. apply andb_false_r.
Qed.

(** A string is cut in one way only at its last occurrence of a character. *)
Lemma split_at_last (c : ascii) (n1 n2 d1 d2 : string) :
  lacks c d1 = true -> lacks c d2 = true ->
  n1 ++ String c d1 = n2 ++ String c d2 ->
  n1 = n2 /\ d1 = d2.
Proof.
  intros H1 H2. revert n2.
  induction n1 as [| a n1 IH]; intros [| b n2] H; cbn [append] in H.
  - now inversion H.
  - inversion H; subst. now rewrite lacks_append in H1.
  - inversion H; subst. now rewrite lacks_append in H2.
  - inversion H; subst. destruct (IH n2) as [-> ->]; [assumption | now split].
Qed.

Lemma lacks_string_of_uint (c : ascii) (d : uint) :
  lacks c "0123456789" = true ->
  lacks c (NilEmpty.string_of_uint d) = true.
Proof.
  intros H. cbn [lacks] in H.
  repeat (apply andb_prop in H as [? H]).
  induction d; cbn [NilEmpty.string_of_uint lacks]; try reflexivity;
    rewrite IHd; rewrite andb_true_r; assumption.
Qed.

Lemma lacks_decimal (c : ascii) (t : N) :
  lacks c "0123456789" = true -> lacks c (decimal t) = true.
Proof. apply lacks_string_of_uint. Qed.

(** Identifiers built by the ingestion handlers tell display names apart. *)
Lemma built_ids_tell_names (pf pf' : ProcessedFile) :
  builtByIngestion pf -> builtByIngestion pf' ->
  id pf = id pf' -> pf_name pf = pf_name pf'.
Proof.
  intros (_ & Hn & t & Hid) (_ & Hn' & t' & Hid') Heq.
  rewrite Hid, Hid' in Heq. cbn [append] in Heq.
  apply split_at_last in Heq as [Hname _];
    [congruence | now apply lacks_decimal | now apply lacks_decimal].
Qed.

Lemma built_distinct_ids (store : list ProcessedFile) :
  Forall builtByIngestion store ->
  NoDup (map pf_name store) ->
  NoDup (map id store).
Proof.
  induction 1 as [| pf rest Hpf Hrest IH]; cbn [map]; intros Hnd; constructor;
    inversion Hnd as [| n l Hnotin Hnd']; subst.
  - intros Hin. apply Hnotin. apply in_map_iff in Hin as (q & Hid & Hq).
    rewrite Forall_forall in Hrest.
    rewrite <- (built_ids_tell_names q pf (Hrest q Hq) Hpf Hid).
    now apply in_map.
  - now apply IH.
Qed.

Lemma filter_all {A} (p : A -> bool) (l : list A) :
  (forall x, In x l -> p x = true) -> filter p l = l.
Proof.
  induction l as [| x rest IH]; intros H; [reflexivity |].
  cbn [filter]. rewrite (H x (or_introl eq_refl)). f_equal.
  apply IH. intros y Hy. apply H. now right.
Qed.

(** X15: in a store whose entries were built by the ingestion handlers and
    bear distinct display names, a click on an entry's remove button takes
    out that entry and no other: the entries before and after it stay, in
    their order. *)
Theorem removing_takes_out_one_entry (st : AppState)
    (before after : list ProcessedFile) (pf : ProcessedFile) :
  Forall builtByIngestion (selectedFiles st) ->
  NoDup (map pf_name (selectedFiles st)) ->
  selectedFiles st = (before ++ pf :: after)%list ->
  selectedFiles (handleRemoveFile (id pf) st) = (before ++ after)%list.
Proof.
  intros Hbuilt Hnames Hsplit.
  pose proof (built_distinct_ids _ Hbuilt Hnames) as Hids.
  rewrite handleRemoveFile_selectedFiles, Hsplit in *.
  rewrite map_app in Hids. cbn [map] in Hids.
  apply NoDup_remove in Hids as [_ Hnotin].
  rewrite filter_app. cbn [filter]. rewrite String.eqb_refl. cbn [negb].
  rewrite !filter_all; [reflexivity | |];
    intros q Hq; apply negb_true_iff, String.eqb_neq; intros Heq;
    apply Hnotin; rewrite <- Heq, in_app_iff;
    [right | left]; now apply in_map.
Qed.

Lemma removing_takes_out_one_entry_witness :
  let st :=
    handleFileChange Toy.clock (Some [Toy.a_pdf; Toy.b_pdf; Toy.c_pdf]) initialState in
  map pf_name (selectedFiles (handleRemoveFile "b.pdf-1700000000001" st))
  = ["a.pdf"; "c.pdf"].
Proof.
  cbn zeta.
  pose proof (removing_takes_out_one_entry
                (handleFileChange Toy.clock
                   (Some [Toy.a_pdf; Toy.b_pdf; Toy.c_pdf]) initialState)
                [{| id := "a.pdf-1700000000000"; file := Toy.a_pdf; pf_name := "a.pdf" |}]
                [{| id := "c.pdf-1700000000002"; file := Toy.c_pdf; pf_name := "c.pdf" |}]
                {| id := "b.pdf-1700000000001"; file := Toy.b_pdf; pf_name := "b.pdf" |})
    as H.
  cbn [id] in H. rewrite H; [reflexivity | | | reflexivity].
  - rewrite handleFileChange_selectedFiles, appendNew_closed_form.
    apply Forall_app. split; [constructor |].
    rewrite Forall_forall. intros q Hq. apply filter_In in Hq as [Hq _].
    revert q Hq. apply Forall_forall. apply toProcessedFiles_built.
  - cbn. repeat constructor; cbn; intuition discriminate.
Defined.

(** * Further properties of the download and of the page as a whole *)

Lemma append_cancel_l (s a b : string) : s ++ a = s ++ b -> a = b.
Proof.
  induction s as [| c s IH]; cbn [append]; [trivial |].
  intros H. inversion H. now apply IH.
Qed.

Lemma download_name_injective (now now' : N) :
  "documento_fusionado_" ++ decimal now ++ ".pdf"
  = "documento_fusionado_" ++ decimal now' ++ ".pdf" ->
  now = now'.
Proof.
  intros H. apply append_cancel_l in H.
  apply (split_at_last "." (decimal now) (decimal now') "pdf" "pdf") in H
    as [H _]; [now apply decimal_injective | reflexivity | reflexivity].
Qed.

(** X16: while a merged URL is held, the download action can be repeated:
    every click offers the same URL, and two clicks at different times offer
    it under different file names. Without a merged URL it offers nothing. *)
Theorem repeated_downloads (st : AppState) (now now' : N) :
  (mergedPdfUrl st = None -> handleDownloadMergedPdf now st = None) /\
  (forall url,
     mergedPdfUrl st = Some url ->
     exists d d',
       handleDownloadMergedPdf now st = Some d /\
       handleDownloadMergedPdf now' st = Some d' /\
       href d = url /\ href d' = url /\
       (download d = download d' <-> now = now')).
Proof.
  unfold handleDownloadMergedPdf. split.
  - now intros ->.
  - intros url ->. do 2 eexists. repeat split; cbn [download].
    + apply download_name_injective.
    + now intros ->.
Qed.

Lemma repeated_downloads_witness :
  let st0 := handleFileChange Toy.clock (Some [Toy.a_pdf; Toy.b_pdf]) initialState in
  let st1 := snd (handleMergePdfs (Available Toy.lib) st0) in
  handleDownloadMergedPdf 5 st0 = None /\
  exists d d',
    handleDownloadMergedPdf 5 st1 = Some d /\
    handleDownloadMergedPdf 6 st1 = Some d' /\
    href d = href d' /\ download d <> download d'.
Proof.
  cbn zeta. split.
  - apply (proj1 (repeated_downloads
                    (handleFileChange Toy.clock (Some [Toy.a_pdf; Toy.b_pdf])
                       initialState) 5 6)).
    reflexivity.
  - destruct (proj2 (repeated_downloads
                (snd (handleMergePdfs (Available Toy.lib)
                        (handleFileChange Toy.clock (Some [Toy.a_pdf; Toy.b_pdf])
                           initialState))) 5 6) _ eq_refl)
      as (d & d' & H1 & H2 & H3 & H4 & H5).
    exists d, d'. repeat split; [exact H1 | exact H2 | congruence |].
    intros Heq. apply H5 in Heq. discriminate.
Defined.

(** X17: the drop handler and the file-picker handler are the same ingestion:
    a drop leaves the state the picker would leave for the same files, with
    the drag highlight switched off. *)
Theorem drop_is_file_change (now : nat -> N) (files : option (list File))
    (st : AppState) :
  handleDrop now files st = setDragOver false (handleFileChange now files st).
Proof.
  unfold handleDrop, handleFileChange. destruct files as [files |]; [| reflexivity].
  now destruct (negb (length (toProcessedFiles now files) =? length files)%nat).
Qed.

(** X18: from the initial page, selecting a batch of at least two valid PDF
    files that hold a page and clicking merge leaves no error, a store that
    holds the batch in its order (same-named files included), and a download
    whose blob is the serialised document of all their pages in batch
    order. *)
Theorem select_merge_download {Page} (lib : PDFLibrary Page)
    (clock : nat -> N) (batch : list File) (now : N) :
  2 <= length batch ->
  forallb (validPdf lib) batch = true ->
  list_sum (map (pageCount lib) batch) <> 0 ->
  let st :=
    snd (handleMergePdfs (Available lib)
           (handleFileChange clock (Some batch) initialState)) in
  map file (selectedFiles st) = batch /\
  error st = None /\
  handleDownloadMergedPdf now st
  = Some {| href :=
              createObjectURL
                {| blobParts :=
                     serialize lib
                       {| docPages := concat (map (pagesOrNone lib) batch);
                          copyFault := None |};
                   blobType := "application/pdf" |};
            download := "documento_fusionado_" ++ decimal now ++ ".pdf" |}.
Proof.
  intros Hlen Hvalid Hsum st.
  set (st0 := handleFileChange clock (Some batch) initialState) in *.
  assert (Hfiles : map file (selectedFiles st0) = batch).
  { subst st0. rewrite handleFileChange_selectedFiles, appendNew_closed_form.
    cbn [selectedFiles initialState]. rewrite app_nil_l, files_of_new_entries.
    cbn [nameStored existsb negb]. rewrite <- (filter_isPdf_valid lib batch Hvalid) at 2.
    apply filter_ext. intros f. apply andb_true_r. }
  assert (Hlen0 : 2 <= length (selectedFiles st0)).
  { rewrite <- (length_map file), Hfiles. exact Hlen. }
  assert (Hpages : mergedPages lib batch = concat (map (pagesOrNone lib) batch)).
  { unfold mergedPages. now rewrite (filter_isPdf_valid lib batch Hvalid). }
  assert (Hout : outcome (mergePdfs (Available lib) (Some (map file (selectedFiles st0))))
                 = inr (serialize lib {| docPages := concat (map (pagesOrNone lib) batch);
                                         copyFault := None |})).
  { rewrite Hfiles, <- Hpages. apply mergePdfs_passing.
    - rewrite forallb_forall in *. intros f Hin. apply validPdf_passes. now apply Hvalid.
    - rewrite Hpages. intros Hnil. apply Hsum.
      now rewrite <- length_concat_pages, Hnil. }
  subst st. rewrite (handleMergePdfs_success _ st0 _ Hlen0 Hout).
  cbn [selectedFiles error]. now split.
Qed.

Lemma select_merge_download_witness :
  let st :=
    snd (handleMergePdfs (Available Toy.lib)
           (handleFileChange Toy.clock (Some [Toy.b_pdf; Toy.a_pdf]) initialState)) in
  map file (selectedFiles st) = [Toy.b_pdf; Toy.a_pdf] /\
  error st = None /\
  handleDownloadMergedPdf 7 st
  = Some {| href :=
              createObjectURL
                {| blobParts := [Byte.x01; Byte.x14; Byte.x15; Byte.x16; Byte.x0a; Byte.x0b];
                   blobType := "application/pdf" |};
            download := "documento_fusionado_7.pdf" |}.
Proof.
  apply (select_merge_download Toy.lib Toy.clock [Toy.b_pdf; Toy.a_pdf] 7);
    [simpl; lia | reflexivity | simpl; lia].
Defined.
